(** * protoc.py: the SCons tool that runs protoc

    A shallow embedding of [src/protoc.py] and the statements about it.

    Python strings are [string]s, the construction environment is a
    record of its [BUILDERS] dictionary and its construction variables
    (a [gmap] from variable name to value), and the functions of SCons
    and of the Python library that the tool calls ([os.path.commonprefix],
    [os.path.splitext], [os.path.join], [Environment.Prepend], [CLVar],
    the substitution of [$VAR] in command strings) are written out next
    to the code that calls them. *)

From Stdlib Require Import Ascii String List Arith Lia Bool.
From stdpp Require Import base option gmap strings list fin_maps.

(** ** Python strings *)

Module Py.

(** [len(s)] *)
Definition len (s : string) : nat := String.length s.

(** [s[n:]] *)
Fixpoint slice_from (n : nat) (s : string) : string :=
  match n, s with
  | O, _ => s
  | S _, EmptyString => EmptyString
  | S n', String _ s' => slice_from n' s'
  end.

(** [s[:n]] *)
Fixpoint slice_to (n : nat) (s : string) : string :=
  match n, s with
  | O, _ => EmptyString
  | S _, EmptyString => EmptyString
  | S n', String c s' => String c (slice_to n' s')
  end.

(** [s.startswith(p)] *)
Fixpoint startswith (p s : string) : bool :=
  match p, s with
  | EmptyString, _ => true
  | String _ _, EmptyString => false
  | String a p', String b s' => if Ascii.eqb a b then startswith p' s' else false
  end.

(** [s.endswith(c)] for a one-character [c] *)
Fixpoint endswith_char (c : ascii) (s : string) : bool :=
  match s with
  | EmptyString => false
  | String a EmptyString => Ascii.eqb a c
  | String _ s' => endswith_char c s'
  end.

(** [s.rfind(c)] for a one-character [c]; [None] is Python's [-1]. *)
Fixpoint rfind (c : ascii) (s : string) : option nat :=
  match s with
  | EmptyString => None
  | String a s' =>
      match rfind c s' with
      | Some i => Some (S i)
      | None => if Ascii.eqb a c then Some O else None
      end
  end.

(** White space, for [str.split] and for [\s] in a pattern: the ASCII
    characters for which [str.isspace] holds. *)
Definition isspace (c : ascii) : bool :=
  let n := nat_of_ascii c in
  ((9 <=? n) && (n <=? 13)) || ((28 <=? n) && (n <=? 32)).

(** [s.split()]: the maximal runs of characters that are not white space. *)
Fixpoint split_go (cur : string) (s : string) : list string :=
  match s with
  | EmptyString => if String.eqb cur EmptyString then [] else [cur]
  | String a s' =>
      if isspace a
      then (if String.eqb cur EmptyString then [] else [cur]) ++ split_go EmptyString s'
      else split_go (cur +:+ String a EmptyString) s'
  end.

Definition split (s : string) : list string := split_go EmptyString s.

End Py.

(** ** [os.path] (POSIX) *)

Module os_path.

(** [os.sep] *)
Definition sep : string := "/".
Definition sep_char : ascii := "/"%char.
Definition extsep_char : ascii := "."%char.

(** [os.path.commonprefix([a, b])]: the longest string that is a prefix
    of both, character by character. *)
Fixpoint commonprefix (a b : string) : string :=
  match a, b with
  | String x a', String y b' =>
      if Ascii.eqb x y then String x (commonprefix a' b') else EmptyString
  | _, _ => EmptyString
  end.

(** [os.path.join(a, b)] *)
Definition join (a b : string) : string :=
  if Py.startswith sep b then b
  else if String.eqb a EmptyString || Py.endswith_char sep_char a then a +:+ b
  else a +:+ sep +:+ b.

(** Are all the characters of [p[i:j]] dots? *)
Fixpoint all_dots (s : string) : bool :=
  match s with
  | EmptyString => true
  | String c s' => Ascii.eqb c extsep_char && all_dots s'
  end.

(** [os.path.splitext(p)]: split at the last dot of the last component,
    unless that component has only dots in front of it. *)
Definition splitext (p : string) : string * string :=
  let filenameIndex :=
    match Py.rfind sep_char p with Some i => S i | None => O end in
  match Py.rfind extsep_char p with
  | Some dotIndex =>
      if (filenameIndex <=? dotIndex)
         && negb (all_dots (Py.slice_from filenameIndex (Py.slice_to dotIndex p)))
      then (Py.slice_to dotIndex p, Py.slice_from dotIndex p)
      else (p, EmptyString)
  | None => (p, EmptyString)
  end.

End os_path.

(** ** The path of a source, relative to the calling SConscript

    Lines 63 to 71 of [_ProtocEmitter]: the body of the first loop, for
    one source whose [srcnode().path] is [src_path]. *)

Definition corrected_path (dirOfCallingSConscript src_path : string) : string :=
  let commonprefix := os_path.commonprefix dirOfCallingSConscript src_path in
  if 0 <? Py.len commonprefix
  then Py.slice_from (Py.len (commonprefix +:+ os_path.sep)) src_path
  else src_path.

Definition source_with_corrected_path (dirOfCallingSConscript : string)
    (source : list string) : list string :=
  map (corrected_path dirOfCallingSConscript) source.

(** ** The construction environment *)

(** What a construction variable holds: a Python string, or a
    [SCons.Util.CLVar], the list of words of a command line. These are
    the two kinds of value that the tool stores and reads. *)
Inductive value :=
| VStr (s : string)
| VCLVar (l : list string).

(** [SCons.Util.CLVar(s)] of a string: its words, [s.split()]. *)
Definition CLVar (s : string) : list string := Py.split s.

(** [SCons.Action.Action(cmd, cmdstr)] *)
Record action := Action { act_cmd : string; act_cmdstr : string }.

(** The emitter function that a builder carries, by its name (the
    emitters take the environment, which holds the builders). *)
Inductive emitter :=
| ProtocJavaEmitter_fn
| ProtocPythonEmitter_fn
| ProtocCPPEmitter_fn
| other_emitter (name : string).

(** [SCons.Builder.Builder(action = .., emitter = .., srcsuffix = ..)] *)
Record builder := Builder {
  bld_action : action;
  bld_emitter : emitter;
  bld_srcsuffix : string
}.

(** An [Environment]: [env['BUILDERS']] and the other variables. *)
Record environment := Env {
  BUILDERS : gmap string builder;
  vars : gmap string value
}.

(** [env[key] = v] *)
Definition setitem (key : string) (v : value) (env : environment) : environment :=
  {| BUILDERS := BUILDERS env; vars := <[key := v]> (vars env) |}.

(** [env['BUILDERS'][key] = bld] *)
Definition set_builder (key : string) (bld : builder) (env : environment) : environment :=
  {| BUILDERS := <[key := bld]> (BUILDERS env); vars := vars env |}.

(** [env.Prepend(key = val)] for a string [val]: a variable that is not
    set becomes [val]; a string gets [val] in front of it ([val + orig]);
    a [CLVar] gets the words of [val] in front of it
    ([CLVar.__radd__], which is [CLVar(val) + orig]). *)
Definition Prepend (key val : string) (env : environment) : environment :=
  match vars env !! key with
  | None => setitem key (VStr val) env
  | Some (VStr orig) => setitem key (VStr (val +:+ orig)) env
  | Some (VCLVar orig) => setitem key (VCLVar (CLVar val ++ orig)) env
  end.

(** ** Exceptions *)

Inductive exn :=
| KeyError (key : string)
| TypeError
| NotModelled      (* a Python expression outside the ones of this tool *)
| OutOfFuel.

Inductive result (A : Type) :=
| Ok (a : A)
| Raise (e : exn).
Arguments Ok {A} a.
Arguments Raise {A} e.

#[global] Instance result_bind : MBind result := fun A B k r =>
  match r with
  | Ok a => k a
  | Raise e => Raise e
  end.

Fixpoint foldM {A B} (f : B -> A -> result B) (l : list A) (b : B) : result B :=
  match l with
  | [] => Ok b
  | a :: l' => b' ← f b a; foldM f l' b'
  end.

(** ** The emitter *)

(** [os.path.join(env[key], modulename)]: [env[key]] raises [KeyError]
    when the variable is not set, [os.path.join] raises [TypeError] on
    what is not a string. *)
Definition join_outdir (env : environment) (key modulename : string) : result string :=
  match vars env !! key with
  | None => Raise (KeyError key)
  | Some (VStr dir) => Ok (os_path.join dir modulename)
  | Some (VCLVar _) => Raise TypeError
  end.

(** Lines 76 to 86: the body of the second loop, the targets that one
    source adds. *)
Definition predict_outputs (env : environment) (output_lang src : string)
    : result (list value) :=
  let modulename := fst (os_path.splitext src) in
  if String.eqb output_lang "cpp" then
    base ← join_outdir env "PROTOCOUTDIR" modulename;
    Ok [VStr (base +:+ ".pb.cc"); VStr (base +:+ ".pb.h")]
  else if String.eqb output_lang "python" then
    base ← join_outdir env "PROTOCPYTHONOUTDIR" modulename;
    Ok [VStr (base +:+ "_pb2.py")]
  else if String.eqb output_lang "java" then
    base ← join_outdir env "PROTOCJAVAOUTDIR" modulename;
    Ok [VStr (base +:+ "_pb2.java")]
  else Ok [].

(** Lines 75 to 86: the second loop. *)
Definition extend_targets (env : environment) (output_lang : string)
    (source : list string) (target : list value) : result (list value) :=
  foldM (fun target src =>
           outs ← predict_outputs env output_lang src;
           Ok (target ++ outs))
        source target.

(** Lines 88 to 91: [try: target.append(env['PROTOCFDSOUT'])], with the
    [KeyError] of a variable that is not set passed over. *)
Definition append_fdsout (env : environment) (target : list value) : list value :=
  match vars env !! "PROTOCFDSOUT" with
  | Some v => target ++ [v]
  | None => target
  end.

(** [_ProtocEmitter(target, source, env, output_lang)], called while the
    SConscript in directory [dirOfCallingSConscript] (the path of
    [Dir('.').srcnode()]) is read. [source] holds the [srcnode().path] of
    each source. The environment is changed by [Prepend] before anything
    can raise, so it is returned next to the result. *)
Definition _ProtocEmitter (dirOfCallingSConscript : string)
    (target : list value) (source : list string) (env : environment)
    (output_lang : string)
    : environment * result (list value * list string) :=
  let env := Prepend "PROTOCPROTOPATH" dirOfCallingSConscript env in
  let source := source_with_corrected_path dirOfCallingSConscript source in
  (env,
   target ← extend_targets env output_lang source target;
   Ok (append_fdsout env target, source)).

Definition ProtocJavaEmitter d target source env :=
  _ProtocEmitter d target source env "java".

Definition ProtocPythonEmitter d target source env :=
  _ProtocEmitter d target source env "python".

Definition ProtocCPPEmitter d target source env :=
  _ProtocEmitter d target source env "cpp".

(** The emitter run [n] times on one environment, as [n] calls of a
    builder do; the environment after the last one. *)
Fixpoint emit_times (n : nat) (d : string) (target : list value)
    (source : list string) (output_lang : string) (env : environment)
    : environment :=
  match n with
  | O => env
  | S n' =>
      emit_times n' d target source output_lang
        (fst (_ProtocEmitter d target source env output_lang))
  end.

(** ** Command strings and their substitution

    SCons builds the command line of an action by substituting the
    construction variables in its command string
    ([SCons.Subst.scons_subst_list], mode [SUBST_CMD]). The part of it
    that the command strings of this tool use is written out here: the
    split of a string into white space, text and [$]-expressions, the
    evaluation of a [$]-expression in the environment, the substitution
    of the value again, and the words that result. *)

Module Subst.

(** One match of [_separate_args] in a string. *)
Inductive arg :=
| White (s : string)     (* a run of white space *)
| Text (s : string)      (* a run of anything else but [$] *)
| Special (c : ascii)    (* [$$], [$(] or [$)] *)
| Var (key : string)     (* [$NAME] or [${...}]: what is to be evaluated *)
| Lone.                  (* a [$] that starts none of these *)

Definition is_dollar (c : ascii) : bool := Ascii.eqb c "$"%char.

Definition is_name_start (c : ascii) : bool :=
  let n := nat_of_ascii c in
  (n =? 95) || ((97 <=? n) && (n <=? 122)) || ((65 <=? n) && (n <=? 90)).

Definition is_name_char (c : ascii) : bool :=
  let n := nat_of_ascii c in
  is_name_start c || (n =? 46) || ((48 <=? n) && (n <=? 57)).

Definition is_special (c : ascii) : bool :=
  Ascii.eqb c "$"%char || Ascii.eqb c "("%char || Ascii.eqb c ")"%char.

Definition has_close (s : string) : bool :=
  match Py.rfind "}"%char s with Some _ => true | None => false end.

Definition snoc (acc : string) (c : ascii) : string :=
  acc +:+ String c EmptyString.

(** Where the scanner is inside a match. *)
Inductive mode :=
| Start
| InWhite (acc : string)
| InText (acc : string)
| AfterDollar
| InName (acc : string)
| InBrace (acc : string).

(** The mode after the first character of a new match. *)
Definition enter (c : ascii) : mode :=
  if Py.isspace c then InWhite (String c EmptyString)
  else if is_dollar c then AfterDollar
  else InText (String c EmptyString).

Definition flush (m : mode) : list arg :=
  match m with
  | Start => []
  | InWhite acc => [White acc]
  | InText acc => [Text acc]
  | AfterDollar => [Lone]
  | InName acc => [Var acc]
  | InBrace acc => [Var acc]
  end.

Fixpoint scan (m : mode) (s : string) : list arg :=
  match s with
  | EmptyString => flush m
  | String c s' =>
      match m with
      | Start => scan (enter c) s'
      | InWhite acc =>
          if Py.isspace c then scan (InWhite (snoc acc c)) s'
          else White acc :: scan (enter c) s'
      | InText acc =>
          if Py.isspace c || is_dollar c then Text acc :: scan (enter c) s'
          else scan (InText (snoc acc c)) s'
      | AfterDollar =>
          if is_special c then Special c :: scan Start s'
          else if is_name_start c then scan (InName (String c EmptyString)) s'
          else if Ascii.eqb c "{"%char then
            (if has_close s' then scan (InBrace EmptyString) s'
             else Lone :: scan (InText (String c EmptyString)) s')
          else Lone :: scan (enter c) s'
      | InName acc =>
          if is_name_char c then scan (InName (snoc acc c)) s'
          else Var acc :: scan (enter c) s'
      | InBrace acc =>
          if Ascii.eqb c "}"%char then Var acc :: scan Start s'
          else scan (InBrace (snoc acc c)) s'
      end
  end.

(** [_separate_args.findall(s)] *)
Definition separate_args (s : string) : list arg := scan Start s.

(** The local variables of a substitution: the targets and sources of
    the command, and the names that the expansions under way have set to
    the empty string ([lv[var] = '']). *)
Record lvars := Lvars {
  TARGETS : list string;
  SOURCES : list string;
  blanked : list string
}.

(** What a [$]-expression evaluates to. *)
Inductive pyval :=
| PStr (s : string)         (* a string, substituted again *)
| PList (l : list string)   (* a list of strings, each substituted again *)
| PNode (path : string)     (* a node, put in as its path *)
| PNodes (l : list string). (* a list of nodes *)

(** The double quote, for the Python expressions below. *)
Definition dq : string := String (ascii_of_nat 34) EmptyString.

(** [["-I%s"%x for x in PROTOCPROTOPATH]] *)
Definition include_expr : string :=
  "[" +:+ dq +:+ "-I%s" +:+ dq +:+ "%x for x in PROTOCPROTOPATH]".

(** [PROTOCFDSOUT and ("-o"+PROTOCFDSOUT) or ""] *)
Definition fdsout_expr : string :=
  "PROTOCFDSOUT and (" +:+ dq +:+ "-o" +:+ dq +:+ "+PROTOCFDSOUT) or " +:+ dq +:+ dq.

Fixpoint chars (s : string) : list string :=
  match s with
  | EmptyString => []
  | String c s' => String c EmptyString :: chars s'
  end.

Fixpoint all_chars (p : ascii -> bool) (s : string) : bool :=
  match s with
  | EmptyString => true
  | String c s' => p c && all_chars p s'
  end.

Definition is_name (s : string) : bool :=
  match s with
  | EmptyString => false
  | String c s' =>
      is_name_start c
      && all_chars (fun c => is_name_char c && negb (Ascii.eqb c "."%char)) s'
  end.

Definition in_list (x : string) (l : list string) : bool :=
  existsb (String.eqb x) l.

(** The value of the name [name]: the local variables first, then the
    construction variables; [None] is Python's [NameError]. *)
Definition lookup_name (env : environment) (lv : lvars) (name : string)
    : result (option pyval) :=
  if in_list name (blanked lv) then Ok (Some (PStr EmptyString))
  else if String.eqb name "SOURCES" then Ok (Some (PNodes (SOURCES lv)))
  else if String.eqb name "TARGETS" then Ok (Some (PNodes (TARGETS lv)))
  else if in_list name ["SOURCE"; "TARGET"; "BUILDERS"] then Raise NotModelled
  else match vars env !! name with
       | Some (VStr s) => Ok (Some (PStr s))
       | Some (VCLVar l) => Ok (Some (PList l))
       | None => Ok None
       end.

(** The path of the directory of the node with path [p]. *)
Definition node_dir (p : string) : string :=
  match Py.rfind os_path.sep_char p with
  | Some O => os_path.sep
  | Some i => Py.slice_to i p
  | None => "."
  end.

(** [eval(key, gvars, lvars)] for the expressions of this tool; [None]
    is a [NameError], which the substitution lets pass. *)
Definition eval (env : environment) (lv : lvars) (key : string)
    : result (option pyval) :=
  if String.eqb key include_expr then
    v ← lookup_name env lv "PROTOCPROTOPATH";
    match v with
    | None => Ok None
    | Some (PStr s) => Ok (Some (PList (map (String.append "-I") (chars s))))
    | Some (PList l) => Ok (Some (PList (map (String.append "-I") l)))
    | Some _ => Raise NotModelled
    end
  else if String.eqb key fdsout_expr then
    v ← lookup_name env lv "PROTOCFDSOUT";
    match v with
    | None => Ok None
    | Some (PStr s) =>
        Ok (Some (PStr (if String.eqb s EmptyString then EmptyString else "-o" +:+ s)))
    | Some (PList []) => Ok (Some (PStr EmptyString))
    | Some (PList l) => Ok (Some (PList (CLVar "-o" ++ l)))
    | Some _ => Raise NotModelled
    end
  else if String.eqb key "SOURCE.dir" then
    if in_list "SOURCE" (blanked lv) then Raise NotModelled
    else match SOURCES lv with
         | src :: _ => Ok (Some (PNode (node_dir src)))
         | [] => Raise NotModelled
         end
  else if is_name key then lookup_name env lv key
  else Raise NotModelled.

(** [key.split('.')[0]] *)
Fixpoint before_dot (key : string) : string :=
  match key with
  | EmptyString => EmptyString
  | String c key' =>
      if Ascii.eqb c "."%char then EmptyString else String c (before_dot key')
  end.

(** [lv = lvars.copy(); lv[var] = ''] *)
Definition blank (key : string) (lv : lvars) : lvars :=
  {| TARGETS := TARGETS lv; SOURCES := SOURCES lv;
     blanked := before_dot key :: blanked lv |}.

(** The [ListSubber]: the words so far, the last one first, and whether
    the next piece starts a new word ([add_new_word]) or goes on the
    current one ([add_to_current_word]). *)
Record subber := Subber { rwords : list string; fresh : bool }.

Definition add_new_word (x : string) (st : subber) : subber :=
  {| rwords := x :: rwords st; fresh := false |}.

Definition ends_with_redirect (w : string) : bool :=
  Py.endswith_char "<"%char w || Py.endswith_char ">"%char w
  || Py.endswith_char "|"%char w.

Definition add_to_current_word (x : string) (st : subber) : subber :=
  match rwords st with
  | [] => add_new_word x st
  | w :: ws =>
      if ends_with_redirect w then add_new_word x st
      else {| rwords := (w +:+ x) :: ws; fresh := false |}
  end.

Definition append (x : string) (st : subber) : subber :=
  if fresh st then add_new_word x st else add_to_current_word x st.

Definition next_word (st : subber) : subber :=
  {| rwords := rwords st; fresh := true |}.

Definition this_word (st : subber) : subber :=
  {| rwords := rwords st; fresh := false |}.

(** [a[0] in ' \t\n\r\f\v'] *)
Definition starts_blank (w : string) : bool :=
  match w with
  | EmptyString => false
  | String c _ =>
      let n := nat_of_ascii c in (n =? 32) || ((9 <=? n) && (n <=? 13))
  end.

Definition has_newline (s : string) : bool :=
  match Py.rfind (ascii_of_nat 10) s with Some _ => true | None => false end.

Definition to_pyval (v : value) : pyval :=
  match v with
  | VStr s => PStr s
  | VCLVar l => PList l
  end.

(** [ListSubber.substitute(v, lv, 0)] for the value [v] of a
    [$]-expression: a string is substituted again, a list is gone
    through with a word break after each element, a node is put in as
    it is. [rec] is the substitution of a string. *)
Definition subst_value (rec : lvars -> bool -> string -> subber -> result subber)
    (lv : lvars) (v : pyval) (st : subber) : result subber :=
  match v with
  | PStr s => rec lv false s st
  | PList l =>
      foldM (fun st a => st ← rec lv true a st; Ok (next_word st)) l st
  | PNode p => Ok (append p st)
  | PNodes l => foldM (fun st p => Ok (next_word (append p st))) l st
  end.

(** [ListSubber.expand(a, lvars, within_list)] for one match [a] of a
    string, and the test on white space that [substitute] makes before
    it. A command of several lines (white space with a newline in it) is
    not modelled. *)
Definition expand (rec : lvars -> bool -> string -> subber -> result subber)
    (env : environment) (lv : lvars) (within_list : bool) (a : arg)
    (st : subber) : result subber :=
  match a with
  | White w =>
      if negb (starts_blank w) then Ok (append w st)
      else if has_newline w then Raise NotModelled
      else if within_list then Ok (append w st)
      else Ok (next_word st)
  | Text t => Ok (append t st)
  | Lone => Ok (append "$" st)
  | Special c => if is_dollar c then Ok (append "$" st) else Ok st
  | Var key =>
      v ← eval env lv key;
      match v with
      | None => Ok st
      | Some v =>
          st ← subst_value rec (blank key lv) v st;
          Ok (this_word st)
      end
  end.

(** [ListSubber.substitute(s, lvars, within_list)] for a string [s].
    [fuel] bounds the depth of the values substituted inside values. *)
Fixpoint substitute (fuel : nat) (env : environment) (lv : lvars)
    (within_list : bool) (s : string) (st : subber) : result subber :=
  match fuel with
  | O => Raise OutOfFuel
  | S fuel' =>
      foldM (fun st a => expand (substitute fuel' env) env lv within_list a st)
            (separate_args s) st
  end.

(** The local variables at the start: no name is blanked. *)
Definition initial_lvars (target source : list string) : lvars :=
  {| TARGETS := target; SOURCES := source; blanked := [] |}.

(** [env.subst_list(cmd, SUBST_CMD, target, source)]: the words of the
    one command line. *)
Definition subst_list (fuel : nat) (env : environment)
    (target source : list string) (cmd : string) : result (list string) :=
  st ← substitute fuel env (initial_lvars target source)
         false cmd {| rwords := []; fresh := true |};
  Ok (rev (rwords st)).

End Subst.

(** The command line that an action runs. *)
Definition command_line (fuel : nat) (env : environment) (act : action)
    (target source : list string) : result (list string) :=
  Subst.subst_list fuel env target source (act_cmd act).

(** ** The actions, the builders and [generate] *)

Definition protocs : string := "protoc".

Definition ProtocJavaAction : action :=
  Action "$PROTOCCOM_START $PROTOCJAVAFLAG $PROTOCCOM_END"
         "Running protoc for Java output".

Definition ProtocPythonAction : action :=
  Action "$PROTOCCOM_START $PROTOCPYTHONFLAG $PROTOCCOM_END"
         "Running protoc for Python output".

Definition ProtocCPPAction : action :=
  Action "$PROTOCCOM_START $PROTOCCPPFLAG $PROTOCCOM_END"
         "Running protoc for CPP output".

Definition ProtocJavaBuilder : builder :=
  Builder ProtocJavaAction ProtocJavaEmitter_fn "$PROTOCSRCSUFFIX".

Definition ProtocPythonBuilder : builder :=
  Builder ProtocPythonAction ProtocPythonEmitter_fn "$PROTOCSRCSUFFIX".

Definition ProtocCPPBuilder : builder :=
  Builder ProtocCPPAction ProtocCPPEmitter_fn "$PROTOCSRCSUFFIX".

Definition _builder_dict : list (string * builder) :=
  [("ProtocCPP", ProtocCPPBuilder);
   ("ProtocPython", ProtocPythonBuilder);
   ("ProtocJava", ProtocJavaBuilder)].

(** Lines 131 to 136: the body of the loop of [generate]. *)
Definition add_builder (env : environment) (kb : string * builder) : environment :=
  match BUILDERS env !! kb.1 with
  | Some _ => env
  | None => set_builder kb.1 kb.2 env
  end.

(** Lines 130 to 137: the loop of [generate] over the three builders. *)
Definition add_builders (env : environment) : environment :=
  fold_left add_builder _builder_dict env.

(** [x or 'protoc'], for what [env.Detect] returns. *)
Definition or_protoc (x : option string) : string :=
  match x with
  | Some p => if String.eqb p EmptyString then "protoc" else p
  | None => "protoc"
  end.

(** Line 145, the value of [PROTOCCOM_START]. *)
Definition PROTOCCOM_START : string :=
  "$PROTOC ${" +:+ Subst.include_expr +:+ "} $PROTOCFLAGS ${"
  +:+ Subst.fdsout_expr +:+ "}".

(** [generate(env)]. [Detect env prog] is [env.Detect(prog)], the search
    for the program on the machine. *)
Definition generate (Detect : environment -> string -> option string)
    (env : environment) : environment :=
  let env := add_builders env in
  let env := setitem "PROTOC" (VStr (or_protoc (Detect env protocs))) env in
  let env := setitem "PROTOCFLAGS" (VCLVar (CLVar EmptyString)) env in
  let env := setitem "PROTOCPROTOPATH" (VCLVar (CLVar EmptyString)) env in
  let env := setitem "PROTOCCOM_START" (VStr PROTOCCOM_START) env in
  let env := setitem "PROTOCCOM_END" (VStr "${SOURCES}") env in
  let env := setitem "PROTOCOUTDIR" (VStr "${SOURCE.dir}") env in
  let env := setitem "PROTOCPYTHONOUTDIR" (VStr "python") env in
  let env := setitem "PROTOCJAVAOUTDIR" (VStr "java") env in
  let env := setitem "PROTOCJAVAFLAG" (VStr "--java_out=${PROTOCJAVAOUTDIR}") env in
  let env := setitem "PROTOCPYTHONFLAG" (VStr "--python_out=${PROTOCPYTHONOUTDIR}") env in
  let env := setitem "PROTOCCPPFLAG" (VStr "--cpp_out=${PROTOCOUTDIR}") env in
  setitem "PROTOCSRCSUFFIX" (VStr ".proto") env.

(** The variables that [generate] assigns. *)
Definition generated_keys : list string :=
  ["PROTOC"; "PROTOCFLAGS"; "PROTOCPROTOPATH"; "PROTOCCOM_START";
   "PROTOCCOM_END"; "PROTOCOUTDIR"; "PROTOCPYTHONOUTDIR"; "PROTOCJAVAOUTDIR";
   "PROTOCJAVAFLAG"; "PROTOCPYTHONFLAG"; "PROTOCCPPFLAG"; "PROTOCSRCSUFFIX"].

(** The action of a builder, run: the command line is built from the
    environment, which the substitution only reads (it works on copies
    of the local variables), so the environment comes back as it was. *)
Definition execute_action (fuel : nat) (act : action)
    (target source : list string) (env : environment)
    : environment * result (list string) :=
  (env, command_line fuel env act target source).

(** ** The notions of the statements, and environments to try them on *)

(** [p] is a prefix of [s]. *)
Definition is_prefix (p s : string) : Prop := exists t, s = p +:+ t.

(** The last component of a path, and whether it has a character that
    is not a dot, so that a suffix put after it is its extension. *)
Definition last_component (p : string) : string :=
  Py.slice_from (match Py.rfind os_path.sep_char p with Some i => S i | None => O end) p.

Definition has_stem (p : string) : Prop :=
  os_path.all_dots (last_component p) = false.

(** A path that does not start at the root. *)
Definition is_relative (p : string) : Prop := Py.startswith os_path.sep p = false.

(** The variables that the emitter reads for its targets. *)
Definition outdir_keys : list string :=
  ["PROTOCOUTDIR"; "PROTOCPYTHONOUTDIR"; "PROTOCJAVAOUTDIR"].

(** The variable that holds the output directory of a language. *)
Definition outdir_var (output_lang : string) : option string :=
  if String.eqb output_lang "cpp" then Some "PROTOCOUTDIR"
  else if String.eqb output_lang "python" then Some "PROTOCPYTHONOUTDIR"
  else if String.eqb output_lang "java" then Some "PROTOCJAVAOUTDIR"
  else None.

(** The output directory of the language is set, to a string. *)
Definition outdir_set (env : environment) (output_lang : string) : Prop :=
  forall key, outdir_var output_lang = Some key ->
    exists dir, vars env !! key = Some (VStr dir).

(** [del env[key]] *)
Definition delitem (key : string) (env : environment) : environment :=
  {| BUILDERS := BUILDERS env; vars := delete key (vars env) |}.

(** A machine on which [env.Detect] finds no program. *)
Definition not_found : environment -> string -> option string := fun _ _ => None.

(** An environment to try the statements on: the tool installed in an
    empty environment where [protoc] is not found, and the C++ output
    directory set afterwards. *)
Definition example_env : environment :=
  setitem "PROTOCOUTDIR" (VStr "gen") (generate not_found (Env ∅ ∅)).

(** A builder of the caller's own, to try the statements on. *)
Definition custom_builder : builder :=
  Builder (Action "my-protoc $SOURCES" "custom") (other_emitter "mine") ".proto".

(** The value of each variable after [generate], but for [PROTOC]. *)
Definition default_values : list (string * value) :=
  [("PROTOCFLAGS", VCLVar []);
   ("PROTOCPROTOPATH", VCLVar []);
   ("PROTOCCOM_START", VStr PROTOCCOM_START);
   ("PROTOCCOM_END", VStr "${SOURCES}");
   ("PROTOCOUTDIR", VStr "${SOURCE.dir}");
   ("PROTOCPYTHONOUTDIR", VStr "python");
   ("PROTOCJAVAOUTDIR", VStr "java");
   ("PROTOCJAVAFLAG", VStr "--java_out=${PROTOCJAVAOUTDIR}");
   ("PROTOCPYTHONFLAG", VStr "--python_out=${PROTOCPYTHONOUTDIR}");
   ("PROTOCCPPFLAG", VStr "--cpp_out=${PROTOCOUTDIR}");
   ("PROTOCSRCSUFFIX", VStr ".proto")].

(** No white space and no [$]: a string that the substitution takes as
    one piece of text. [plain] strings are not empty either. *)
Definition clean (s : string) : bool :=
  Subst.all_chars (fun c => negb (Py.isspace c) && negb (Subst.is_dollar c)) s.

Definition plain (s : string) : bool :=
  negb (String.eqb s EmptyString) && clean s.

(** The three languages of the tool: the action of each, the variable
    that holds its flag, the option of the flag, and the variable that
    holds its output directory. *)
Inductive language := Cpp | Python | Java.

Definition lang_action (l : language) : action :=
  match l with
  | Cpp => ProtocCPPAction
  | Python => ProtocPythonAction
  | Java => ProtocJavaAction
  end.

Definition lang_flag_var (l : language) : string :=
  match l with
  | Cpp => "PROTOCCPPFLAG"
  | Python => "PROTOCPYTHONFLAG"
  | Java => "PROTOCJAVAFLAG"
  end.

Definition lang_option (l : language) : string :=
  match l with
  | Cpp => "--cpp_out="
  | Python => "--python_out="
  | Java => "--java_out="
  end.

Definition lang_outdir_var (l : language) : string :=
  match l with
  | Cpp => "PROTOCOUTDIR"
  | Python => "PROTOCPYTHONOUTDIR"
  | Java => "PROTOCJAVAOUTDIR"
  end.

(** The output directory of each language after [generate]. *)
Definition default_outdir (l : language) : string :=
  match l with
  | Cpp => "${SOURCE.dir}"
  | Python => "python"
  | Java => "java"
  end.

(** The [-o] flag of a descriptor-set path. *)
Definition fdsout_flag (fds : option string) : list string :=
  match fds with
  | Some p => if String.eqb p EmptyString then [] else ["-o" +:+ p]
  | None => []
  end.

(** A configuration: the command strings are those that [generate]
    sets, the executable is [exe], the include directories are [incs],
    the global flags are [flags], the descriptor-set path is [fds] when
    there is one, and the output directory of language [l] is [dir]. *)
Record configured (env : environment) (exe : string) (incs flags : list string)
    (fds : option string) (l : language) (dir : string) : Prop := {
  cfg_start : vars env !! "PROTOCCOM_START" = Some (VStr PROTOCCOM_START);
  cfg_end : vars env !! "PROTOCCOM_END" = Some (VStr "${SOURCES}");
  cfg_flag : vars env !! lang_flag_var l
             = Some (VStr (lang_option l +:+ "${" +:+ lang_outdir_var l +:+ "}"));
  cfg_exe : vars env !! "PROTOC" = Some (VStr exe);
  cfg_exe_plain : plain exe = true;
  cfg_incs : vars env !! "PROTOCPROTOPATH" = Some (VCLVar incs);
  cfg_incs_clean : forallb clean incs = true;
  cfg_flags : vars env !! "PROTOCFLAGS" = Some (VCLVar flags);
  cfg_flags_plain : forallb plain flags = true;
  cfg_fds : vars env !! "PROTOCFDSOUT" = VStr <$> fds;
  cfg_fds_clean : forall p, fds = Some p -> clean p = true;
  cfg_dir : vars env !! lang_outdir_var l = Some (VStr dir)
}.

(** The word that the value [dir] of an output directory gives in the
    command for the sources [source]: [dir] itself when it is text, and
    the directory of the first source for ['${SOURCE.dir}'], the value
    that [generate] gives to [PROTOCOUTDIR]. *)
Inductive outdir_word (source : list string) : string -> string -> Prop :=
| outdir_text (dir : string) :
    clean dir = true -> outdir_word source dir dir
| outdir_of_source (src : string) (rest : list string) :
    source = src :: rest ->
    outdir_word source "${SOURCE.dir}" (Subst.node_dir src).

(** A name that is looked up in the construction variables. *)
Definition ordinary (key : string) : bool :=
  negb (String.eqb key Subst.include_expr)
  && negb (String.eqb key Subst.fdsout_expr)
  && negb (String.eqb key "SOURCE.dir")
  && Subst.is_name key
  && negb (Subst.in_list key ["SOURCES"; "TARGETS"; "SOURCE"; "TARGET"; "BUILDERS"]).

(** An environment to try the command on: [example_env] with a
    descriptor set, after one run of the emitter in directory [foo]. *)
Definition example_env_emitted : environment :=
  (_ProtocEmitter "foo" [] ["foo/bar.proto"]
     (setitem "PROTOCFDSOUT" (VStr "all.fds") example_env) "cpp").1.

(** ** The rest of the tool, and notions for the statements about it *)

(** [exists(env)], lines 166 to 167: what [env.Detect] finds. *)
Definition exists_ (Detect : environment -> string -> option string)
    (env : environment) : option string :=
  Detect env protocs.

(** The builders of [_builder_dict], as the dictionary that it is. *)
Definition tool_builders : gmap string builder := list_to_map _builder_dict.

(** The targets that lines 76 to 86 add for one source, when the output
    directory of the language is [dir]. *)
Definition outputs_of (output_lang dir src : string) : list value :=
  let base := os_path.join dir (os_path.splitext src).1 in
  if String.eqb output_lang "cpp" then
    [VStr (base +:+ ".pb.cc"); VStr (base +:+ ".pb.h")]
  else if String.eqb output_lang "python" then [VStr (base +:+ "_pb2.py")]
  else if String.eqb output_lang "java" then [VStr (base +:+ "_pb2.java")]
  else [].

(** How many targets a language has for each source. *)
Definition targets_per_source (output_lang : string) : nat :=
  if String.eqb output_lang "cpp" then 2
  else if String.eqb output_lang "python" then 1
  else if String.eqb output_lang "java" then 1
  else 0.

(** What [PROTOCFDSOUT] adds to the targets. *)
Definition fdsout_target (env : environment) : list value :=
  match vars env !! "PROTOCFDSOUT" with
  | Some v => [v]
  | None => []
  end.

(** An extension: a dot, then characters that are neither a dot nor a
    separator. *)
Definition is_extension (ext : string) : Prop :=
  Py.rfind os_path.extsep_char ext = Some 0
  /\ Py.rfind os_path.sep_char ext = None.

(** A path that starts at the root. *)
Definition is_absolute (p : string) : Prop := Py.startswith os_path.sep p = true.

(** ** Facts about strings *)

Lemma str_app_nil_l (s : string) : EmptyString +:+ s = s.
Proof. reflexivity. Qed.

Lemma str_app_cons (c : ascii) (s t : string) :
  String c s +:+ t = String c (s +:+ t).
Proof. reflexivity. Qed.

Lemma str_app_nil_r (s : string) : s +:+ EmptyString = s.
Proof. induction s as [|c s IH]; [reflexivity|]. rewrite str_app_cons, IH. reflexivity. Qed.

Lemma str_app_assoc (a b c : string) : (a +:+ b) +:+ c = a +:+ (b +:+ c).
Proof.
  induction a as [|x a IH]; [reflexivity|].
  rewrite !str_app_cons, IH. reflexivity.
Qed.

Lemma len_app (a b : string) : Py.len (a +:+ b) = Py.len a + Py.len b.
Proof.
  induction a as [|x a IH]; [reflexivity|].
  rewrite str_app_cons. unfold Py.len in *. simpl. rewrite IH. reflexivity.
Qed.

Lemma len_pos (s : string) : s <> EmptyString -> (0 <? Py.len s) = true.
Proof. destruct s; [contradiction | reflexivity]. Qed.

Lemma slice_from_app (a b : string) : Py.slice_from (Py.len a) (a +:+ b) = b.
Proof.
  induction a as [|x a IH]; [reflexivity|].
  rewrite str_app_cons. exact IH.
Qed.

Lemma slice_to_app (a b : string) : Py.slice_to (Py.len a) (a +:+ b) = a.
Proof.
  induction a as [|x a IH]; [reflexivity|].
  rewrite str_app_cons. unfold Py.len in *. simpl. rewrite IH. reflexivity.
Qed.

Lemma slice_to_from (n : nat) (s : string) :
  Py.slice_to n s +:+ Py.slice_from n s = s.
Proof.
  revert s. induction n as [|n IH]; intros s; [reflexivity|].
  destruct s as [|c s]; [reflexivity|].
  simpl. rewrite str_app_cons, IH. reflexivity.
Qed.

Lemma ascii_eqb_refl (c : ascii) : Ascii.eqb c c = true.
Proof. apply Ascii.eqb_refl. Qed.

(** *** The common prefix *)

Lemma commonprefix_prefix_l (a b : string) :
  is_prefix (os_path.commonprefix a b) a.
Proof.
  revert b. induction a as [|x a IH]; intros b.
  - exists EmptyString. reflexivity.
  - destruct b as [|y b]; simpl.
    + eexists. reflexivity.
    + destruct (Ascii.eqb x y).
      * destruct (IH b) as [t Ht]. exists t. rewrite str_app_cons, <- Ht. reflexivity.
      * eexists. reflexivity.
Qed.

Lemma commonprefix_prefix_r (a b : string) :
  is_prefix (os_path.commonprefix a b) b.
Proof.
  revert b. induction a as [|x a IH]; intros b.
  - exists b. reflexivity.
  - destruct b as [|y b]; simpl.
    + eexists. reflexivity.
    + destruct (Ascii.eqb_spec x y) as [->|Hne].
      * destruct (IH b) as [t Ht]. exists t. rewrite str_app_cons, <- Ht. reflexivity.
      * eexists. reflexivity.
Qed.

Lemma commonprefix_longest (a b p : string) :
  is_prefix p a -> is_prefix p b -> is_prefix p (os_path.commonprefix a b).
Proof.
  revert a b. induction p as [|c p IH]; intros a b [ta Ha] [tb Hb].
  - eexists. reflexivity.
  - subst a b. rewrite !str_app_cons. simpl. rewrite ascii_eqb_refl.
    destruct (IH (p +:+ ta) (p +:+ tb)) as [t Ht]; [eexists; reflexivity ..|].
    exists t. rewrite str_app_cons, <- Ht. reflexivity.
Qed.

Lemma commonprefix_of_prefix (a t : string) :
  os_path.commonprefix a (a +:+ t) = a.
Proof.
  induction a as [|x a IH]; [destruct t; reflexivity|].
  rewrite str_app_cons. simpl. rewrite ascii_eqb_refl, IH. reflexivity.
Qed.

(** *** [rfind], [splitext] and [join] *)

Lemma rfind_lt (c : ascii) (s : string) (i : nat) :
  Py.rfind c s = Some i -> i < Py.len s.
Proof.
  revert i. induction s as [|a s IH]; intros i; simpl; [discriminate|].
  unfold Py.len in *. simpl.
  destruct (Py.rfind c s) as [j|].
  - intros [= <-]. specialize (IH j eq_refl). lia.
  - destruct (Ascii.eqb a c); [intros [= <-]; lia | discriminate].
Qed.

Lemma rfind_app (c : ascii) (a b : string) :
  Py.rfind c (a +:+ b) =
  match Py.rfind c b with
  | Some i => Some (Py.len a + i)
  | None => Py.rfind c a
  end.
Proof.
  induction a as [|x a IH]; [rewrite str_app_nil_l; destruct (Py.rfind c b); reflexivity|].
  rewrite str_app_cons. simpl. rewrite IH.
  destruct (Py.rfind c b); reflexivity.
Qed.

Lemma splitext_app (S ext : string) :
  has_stem S ->
  Py.rfind os_path.extsep_char ext = Some 0 ->
  Py.rfind os_path.sep_char ext = None ->
  os_path.splitext (S +:+ ext) = (S, ext).
Proof.
  unfold has_stem, last_component, os_path.splitext. intros Hstem Hdot Hsep.
  rewrite !rfind_app, Hdot, Hsep, Nat.add_0_r, slice_to_app, slice_from_app, Hstem.
  replace (_ <=? Py.len S) with true; [reflexivity|].
  symmetry. apply Nat.leb_le.
  destruct (Py.rfind os_path.sep_char S) as [i|] eqn:E; [|lia].
  apply rfind_lt in E. lia.
Qed.

Lemma splitext_proto (S : string) :
  has_stem S -> os_path.splitext (S +:+ ".proto") = (S, ".proto").
Proof. intros H. apply splitext_app; [exact H | reflexivity | reflexivity]. Qed.

Lemma splitext_concat (p : string) :
  (os_path.splitext p).1 +:+ (os_path.splitext p).2 = p.
Proof.
  unfold os_path.splitext.
  destruct (Py.rfind os_path.extsep_char p) as [i|]; [|apply str_app_nil_r].
  destruct (_ && _); [apply slice_to_from | apply str_app_nil_r].
Qed.

Lemma startswith_app (q s t : string) :
  Py.startswith q s = true -> Py.startswith q (s +:+ t) = true.
Proof.
  revert s. induction q as [|a q IH]; intros s; [reflexivity|].
  destruct s as [|b s]; [discriminate|].
  rewrite str_app_cons. simpl. destruct (Ascii.eqb a b); [apply IH | discriminate].
Qed.

Lemma stem_relative (p : string) :
  is_relative p -> is_relative (os_path.splitext p).1.
Proof.
  unfold is_relative. intros Hp.
  destruct (Py.startswith os_path.sep (os_path.splitext p).1) eqn:E; [|reflexivity].
  apply (startswith_app _ _ (os_path.splitext p).2) in E.
  rewrite splitext_concat in E. congruence.
Qed.

Lemma join_relative (dir name : string) :
  is_relative name ->
  dir <> EmptyString ->
  Py.endswith_char os_path.sep_char dir = false ->
  os_path.join dir name = dir +:+ "/" +:+ name.
Proof.
  unfold is_relative, os_path.join. intros -> Hdir ->.
  destruct (String.eqb_spec dir EmptyString); [contradiction | reflexivity].
Qed.

(** ** The path resolver *)

(** C1. For every pair of a base directory and an input path the common
    prefix that the resolver takes is the longest string that is a
    prefix of both. When it is not empty the resolver returns the input
    path without its first [len(prefix) + 1] characters, which is the
    rest of the path when a separator follows the prefix; when it is
    empty the resolver returns the input path as it is. In particular,
    for an input path made of a (non-empty) base directory, a separator
    and a rest, the resolver returns the rest. *)
Theorem C1_corrected_path (base_dir input_path : string) :
  let prefix := os_path.commonprefix base_dir input_path in
  (is_prefix prefix base_dir /\ is_prefix prefix input_path /\
   forall p, is_prefix p base_dir -> is_prefix p input_path -> is_prefix p prefix) /\
  (prefix <> EmptyString ->
   corrected_path base_dir input_path
     = Py.slice_from (Py.len prefix + 1) input_path /\
   forall rest, input_path = prefix +:+ os_path.sep +:+ rest ->
     corrected_path base_dir input_path = rest) /\
  (prefix = EmptyString -> corrected_path base_dir input_path = input_path) /\
  (forall rest, base_dir <> EmptyString ->
     input_path = base_dir +:+ os_path.sep +:+ rest ->
     corrected_path base_dir input_path = rest).
Proof.
  intros prefix.
  assert (Hne : prefix <> EmptyString ->
                forall rest, input_path = prefix +:+ os_path.sep +:+ rest ->
                  corrected_path base_dir input_path = rest).
  { intros Hp rest Hin. unfold corrected_path. fold prefix.
    rewrite (len_pos _ Hp).
    transitivity (Py.slice_from (Py.len (prefix +:+ os_path.sep))
                    ((prefix +:+ os_path.sep) +:+ rest)).
    - f_equal. rewrite str_app_assoc. exact Hin.
    - apply slice_from_app. }
  split; [|split; [|split]].
  - split; [apply commonprefix_prefix_l|].
    split; [apply commonprefix_prefix_r | apply commonprefix_longest].
  - intros Hp. split; [|exact (Hne Hp)].
    unfold corrected_path. fold prefix.
    rewrite (len_pos _ Hp), len_app. reflexivity.
  - intros Hp. unfold corrected_path. fold prefix. rewrite Hp. reflexivity.
  - intros rest Hb Hin.
    assert (Hpre : prefix = base_dir).
    { unfold prefix. rewrite Hin. apply commonprefix_of_prefix. }
    apply Hne; rewrite Hpre; assumption.
Qed.

Lemma C1_corrected_path_witness :
  corrected_path "foo" "foo/bar.proto" = "bar.proto".
Proof.
  apply (C1_corrected_path "foo" "foo/bar.proto"); [discriminate | reflexivity].
Defined.

(** ** The output predictor *)

Lemma join_outdir_ext (e1 e2 : environment) (key m : string) :
  vars e1 !! key = vars e2 !! key -> join_outdir e1 key m = join_outdir e2 key m.
Proof. unfold join_outdir. intros ->. reflexivity. Qed.

Lemma predict_outputs_ext (e1 e2 : environment) (lang src : string) :
  (forall key, In key outdir_keys -> vars e1 !! key = vars e2 !! key) ->
  predict_outputs e1 lang src = predict_outputs e2 lang src.
Proof.
  intros H. unfold predict_outputs.
  rewrite (join_outdir_ext e1 e2 "PROTOCOUTDIR"), (join_outdir_ext e1 e2 "PROTOCPYTHONOUTDIR"),
    (join_outdir_ext e1 e2 "PROTOCJAVAOUTDIR"); [reflexivity | apply H; simpl; auto ..].
Qed.

Lemma extend_targets_ext (e1 e2 : environment) (lang : string)
    (source : list string) (target : list value) :
  (forall key, In key outdir_keys -> vars e1 !! key = vars e2 !! key) ->
  extend_targets e1 lang source target = extend_targets e2 lang source target.
Proof.
  intros H. unfold extend_targets. revert target.
  induction source as [|src source IH]; intros target; [reflexivity|].
  simpl. rewrite (predict_outputs_ext e1 e2 lang src H).
  destruct (predict_outputs e2 lang src); simpl; [apply IH | reflexivity].
Qed.

Lemma predict_outputs_ok (env : environment) (lang src : string) :
  outdir_set env lang -> exists outs, predict_outputs env lang src = Ok outs.
Proof.
  unfold outdir_set, outdir_var, predict_outputs, join_outdir. intros H.
  destruct (String.eqb lang "cpp").
  { destruct (H _ eq_refl) as [dir ->]. eexists. reflexivity. }
  destruct (String.eqb lang "python").
  { destruct (H _ eq_refl) as [dir ->]. eexists. reflexivity. }
  destruct (String.eqb lang "java").
  { destruct (H _ eq_refl) as [dir ->]. eexists. reflexivity. }
  eexists. reflexivity.
Qed.

Lemma extend_targets_ok (env : environment) (lang : string)
    (source : list string) (target : list value) :
  outdir_set env lang -> exists outs, extend_targets env lang source target = Ok outs.
Proof.
  intros H. unfold extend_targets. revert target.
  induction source as [|src source IH]; intros target; [eexists; reflexivity|].
  simpl. destruct (predict_outputs_ok env lang src H) as [outs ->]. simpl. apply IH.
Qed.

Lemma vars_setitem_ne (key key' : string) (v : value) (env : environment) :
  key <> key' -> vars (setitem key v env) !! key' = vars env !! key'.
Proof. intros H. simpl. apply lookup_insert_ne. exact H. Qed.

Lemma vars_Prepend_ne (key key' val : string) (env : environment) :
  key <> key' -> vars (Prepend key val env) !! key' = vars env !! key'.
Proof.
  intros H. unfold Prepend.
  destruct (vars env !! key) as [[orig|orig]|]; apply vars_setitem_ne; exact H.
Qed.

Lemma BUILDERS_Prepend (key val : string) (env : environment) :
  BUILDERS (Prepend key val env) = BUILDERS env.
Proof. unfold Prepend. destruct (vars env !! key) as [[orig|orig]|]; reflexivity. Qed.

Lemma outdir_key_ne (key : string) : In key outdir_keys -> "PROTOCPROTOPATH" <> key.
Proof. simpl. intros [<-|[<-|[<-|[]]]]; discriminate. Qed.

(** C2. For an input path with extension [.proto] and stem [S], and the
    C++ output directory [dir], the predictor returns the two paths
    [dir/S.pb.cc] and [dir/S.pb.h], in this order, and the loop over a
    list of that one source adds just these two to the targets. [dir/S]
    is [os.path.join(dir, S)], which for a relative path and a directory
    name (not empty, no separator at its end) is [dir], a separator and
    [S]. *)
Theorem C2_cpp_outputs (env : environment) (dir p S : string) (target : list value) :
  vars env !! "PROTOCOUTDIR" = Some (VStr dir) ->
  os_path.splitext p = (S, ".proto") ->
  predict_outputs env "cpp" p
    = Ok [VStr (os_path.join dir S +:+ ".pb.cc"); VStr (os_path.join dir S +:+ ".pb.h")]
  /\ extend_targets env "cpp" [p] target
    = Ok (target ++ [VStr (os_path.join dir S +:+ ".pb.cc");
                     VStr (os_path.join dir S +:+ ".pb.h")])
  /\ (is_relative p -> dir <> EmptyString ->
      Py.endswith_char os_path.sep_char dir = false ->
      os_path.join dir S = dir +:+ "/" +:+ S).
Proof.
  intros Hdir Hsplit.
  assert (Hp : predict_outputs env "cpp" p
    = Ok [VStr (os_path.join dir S +:+ ".pb.cc"); VStr (os_path.join dir S +:+ ".pb.h")]).
  { unfold predict_outputs, join_outdir. rewrite Hdir, Hsplit. reflexivity. }
  split; [exact Hp|]. split.
  - unfold extend_targets. simpl. rewrite Hp. reflexivity.
  - intros Hrel. apply join_relative.
    replace S with (os_path.splitext p).1 by (rewrite Hsplit; reflexivity).
    apply stem_relative, Hrel.
Qed.

Lemma C2_cpp_outputs_witness :
  predict_outputs example_env "cpp" "bar.proto"
    = Ok [VStr "gen/bar.pb.cc"; VStr "gen/bar.pb.h"].
Proof.
  apply (C2_cpp_outputs example_env "gen" "bar.proto" "bar" []); reflexivity.
Defined.

(** C3. For an input path with stem [S], the predictor returns the one
    path [dir/S_pb2.py] for Python, with [dir] the Python output
    directory, and the one path [dir/S_pb2.java] for Java, with [dir] the
    Java output directory; the loop over a list of that one source adds
    just this path to the targets. *)
Theorem C3_python_java_outputs (env : environment) (dir p S : string)
    (target : list value) :
  (os_path.splitext p).1 = S ->
  (vars env !! "PROTOCPYTHONOUTDIR" = Some (VStr dir) ->
   predict_outputs env "python" p = Ok [VStr (os_path.join dir S +:+ "_pb2.py")]
   /\ extend_targets env "python" [p] target
      = Ok (target ++ [VStr (os_path.join dir S +:+ "_pb2.py")]))
  /\ (vars env !! "PROTOCJAVAOUTDIR" = Some (VStr dir) ->
      predict_outputs env "java" p = Ok [VStr (os_path.join dir S +:+ "_pb2.java")]
      /\ extend_targets env "java" [p] target
         = Ok (target ++ [VStr (os_path.join dir S +:+ "_pb2.java")]))
  /\ (is_relative p -> dir <> EmptyString ->
      Py.endswith_char os_path.sep_char dir = false ->
      os_path.join dir S = dir +:+ "/" +:+ S).
Proof.
  intros Hsplit. split; [|split].
  - intros Hdir.
    assert (Hp : predict_outputs env "python" p
                 = Ok [VStr (os_path.join dir S +:+ "_pb2.py")]).
    { unfold predict_outputs, join_outdir. rewrite Hdir, Hsplit. reflexivity. }
    split; [exact Hp|]. unfold extend_targets. simpl. rewrite Hp. reflexivity.
  - intros Hdir.
    assert (Hp : predict_outputs env "java" p
                 = Ok [VStr (os_path.join dir S +:+ "_pb2.java")]).
    { unfold predict_outputs, join_outdir. rewrite Hdir, Hsplit. reflexivity. }
    split; [exact Hp|]. unfold extend_targets. simpl. rewrite Hp. reflexivity.
  - intros Hrel. apply join_relative. rewrite <- Hsplit. apply stem_relative, Hrel.
Qed.

Lemma C3_python_java_outputs_witness :
  predict_outputs example_env "python" "a/bar.proto" = Ok [VStr "python/a/bar_pb2.py"]
  /\ predict_outputs example_env "java" "a/bar.proto" = Ok [VStr "java/a/bar_pb2.java"].
Proof.
  split.
  - apply (C3_python_java_outputs example_env "python" "a/bar.proto" "a/bar" []);
      reflexivity.
  - apply (C3_python_java_outputs example_env "java" "a/bar.proto" "a/bar" []);
      reflexivity.
Defined.

(** C4. For every list of sources and every language, in an environment
    where the output directory of the language is set: the emitter
    succeeds, and
    with [outs] the targets that its loop has gathered, it returns
    [outs] with the descriptor-set path put once at the end when
    [PROTOCFDSOUT] is set, and [outs] as it is when [PROTOCFDSOUT] is not
    set. [outs] is what the emitter returns once [PROTOCFDSOUT] is
    deleted. *)
Theorem C4_descriptor_set (d : string) (target : list value)
    (source : list string) (env : environment) (lang : string) :
  outdir_set env lang ->
  exists outs,
    (_ProtocEmitter d target source (delitem "PROTOCFDSOUT" env) lang).2
      = Ok (outs, source_with_corrected_path d source)
    /\ (_ProtocEmitter d target source env lang).2
      = Ok (match vars env !! "PROTOCFDSOUT" with
            | Some v => outs ++ [v]
            | None => outs
            end, source_with_corrected_path d source).
Proof.
  intros Hset.
  destruct (extend_targets_ok env lang (source_with_corrected_path d source) target Hset)
    as [outs Houts].
  exists outs. unfold _ProtocEmitter. simpl. split.
  - rewrite (extend_targets_ext _ env), Houts.
    + simpl. unfold append_fdsout.
      rewrite vars_Prepend_ne by discriminate. simpl.
      rewrite lookup_delete_eq. reflexivity.
    + intros key Hkey. rewrite vars_Prepend_ne by (apply outdir_key_ne, Hkey).
      simpl. apply lookup_delete_ne.
      revert Hkey. simpl. intros [<-|[<-|[<-|[]]]]; discriminate.
  - rewrite (extend_targets_ext _ env), Houts.
    + simpl. unfold append_fdsout.
      rewrite vars_Prepend_ne by discriminate. reflexivity.
    + intros key Hkey. apply vars_Prepend_ne, outdir_key_ne, Hkey.
Qed.

Lemma C4_descriptor_set_witness :
  let env := setitem "PROTOCFDSOUT" (VStr "all.fds") example_env in
  exists outs,
    (_ProtocEmitter "foo" [] ["foo/bar.proto"] (delitem "PROTOCFDSOUT" env) "cpp").2
      = Ok (outs, ["bar.proto"])
    /\ (_ProtocEmitter "foo" [] ["foo/bar.proto"] env "cpp").2
      = Ok (outs ++ [VStr "all.fds"], ["bar.proto"]).
Proof.
  apply (C4_descriptor_set "foo" [] ["foo/bar.proto"]
           (setitem "PROTOCFDSOUT" (VStr "all.fds") example_env) "cpp").
  intros key [= <-]. eexists. reflexivity.
Defined.

(** ** Installation: [generate] *)

Lemma vars_add_builder (env : environment) (kb : string * builder) :
  vars (add_builder env kb) = vars env.
Proof. unfold add_builder. destruct (BUILDERS env !! kb.1); reflexivity. Qed.

Lemma vars_add_builders (env : environment) : vars (add_builders env) = vars env.
Proof.
  unfold add_builders. simpl. rewrite !vars_add_builder. reflexivity.
Qed.

Lemma add_builder_keeps (env : environment) (kb : string * builder)
    (name : string) (bld : builder) :
  BUILDERS env !! name = Some bld ->
  BUILDERS (add_builder env kb) !! name = Some bld.
Proof.
  intros H. destruct kb as [k b]. unfold add_builder. simpl.
  destruct (BUILDERS env !! k) eqn:E; [exact H|].
  simpl. rewrite lookup_insert_ne; [exact H|]. congruence.
Qed.

Lemma add_builder_present (env : environment) (kb : string * builder) :
  is_Some (BUILDERS (add_builder env kb) !! kb.1).
Proof.
  unfold add_builder. destruct (BUILDERS env !! kb.1) eqn:E.
  - rewrite E. eauto.
  - simpl. rewrite lookup_insert_eq. eauto.
Qed.

Lemma add_builder_noop (env : environment) (kb : string * builder) :
  is_Some (BUILDERS env !! kb.1) -> add_builder env kb = env.
Proof. intros [b Hb]. unfold add_builder. rewrite Hb. reflexivity. Qed.

Lemma add_builder_is_Some (env : environment) (kb : string * builder) (name : string) :
  is_Some (BUILDERS env !! name) -> is_Some (BUILDERS (add_builder env kb) !! name).
Proof. intros [b Hb]. exists b. apply add_builder_keeps, Hb. Qed.

Lemma add_builders_keeps (env : environment) (name : string) (bld : builder) :
  BUILDERS env !! name = Some bld ->
  BUILDERS (add_builders env) !! name = Some bld.
Proof.
  intros H. unfold add_builders. simpl. do 3 apply add_builder_keeps. exact H.
Qed.

Lemma add_builders_present (env : environment) (name : string) :
  In name (map fst _builder_dict) -> is_Some (BUILDERS (add_builders env) !! name).
Proof.
  unfold add_builders. simpl. intros [<-|[<-|[<-|[]]]].
  - do 2 apply add_builder_is_Some.
    apply (add_builder_present env ("ProtocCPP", ProtocCPPBuilder)).
  - apply add_builder_is_Some.
    apply (add_builder_present _ ("ProtocPython", ProtocPythonBuilder)).
  - apply (add_builder_present _ ("ProtocJava", ProtocJavaBuilder)).
Qed.

Lemma BUILDERS_generate (Detect : environment -> string -> option string)
    (env : environment) :
  BUILDERS (generate Detect env) = BUILDERS (add_builders env).
Proof. reflexivity. Qed.

Lemma vars_generate (Detect : environment -> string -> option string)
    (env : environment) :
  vars (generate Detect env) =
  <["PROTOCSRCSUFFIX" := VStr ".proto"]>
  (<["PROTOCCPPFLAG" := VStr "--cpp_out=${PROTOCOUTDIR}"]>
  (<["PROTOCPYTHONFLAG" := VStr "--python_out=${PROTOCPYTHONOUTDIR}"]>
  (<["PROTOCJAVAFLAG" := VStr "--java_out=${PROTOCJAVAOUTDIR}"]>
  (<["PROTOCJAVAOUTDIR" := VStr "java"]>
  (<["PROTOCPYTHONOUTDIR" := VStr "python"]>
  (<["PROTOCOUTDIR" := VStr "${SOURCE.dir}"]>
  (<["PROTOCCOM_END" := VStr "${SOURCES}"]>
  (<["PROTOCCOM_START" := VStr PROTOCCOM_START]>
  (<["PROTOCPROTOPATH" := VCLVar []]>
  (<["PROTOCFLAGS" := VCLVar []]>
  (<["PROTOC" := VStr (or_protoc (Detect (add_builders env) protocs))]>
   (vars env)))))))))))).
Proof.
  unfold generate. simpl.
  rewrite vars_add_builders. reflexivity.
Qed.

Lemma lookup_insert_cong (m1 m2 : gmap string value) (i k : string) (x : value) :
  m1 !! k = m2 !! k -> <[i := x]> m1 !! k = <[i := x]> m2 !! k.
Proof. intros H. rewrite !lookup_insert, H. reflexivity. Qed.

Lemma generate_other_key (Detect : environment -> string -> option string)
    (env : environment) (key : string) :
  ~ In key generated_keys -> vars (generate Detect env) !! key = vars env !! key.
Proof.
  intros H. rewrite vars_generate.
  rewrite !lookup_insert_ne; [reflexivity | intros <-; apply H; simpl; tauto ..].
Qed.

Lemma generate_default (Detect : environment -> string -> option string)
    (env : environment) (key : string) (v : value) :
  In (key, v) default_values -> vars (generate Detect env) !! key = Some v.
Proof.
  intros H. rewrite vars_generate. simpl in H.
  repeat (destruct H as [[= <- <-]|H]; [by simplify_map_eq|]).
  destruct H.
Qed.

Lemma generate_PROTOC (Detect : environment -> string -> option string)
    (env : environment) :
  vars (generate Detect env) !! "PROTOC"
  = Some (VStr (or_protoc (Detect (add_builders env) protocs))).
Proof. rewrite vars_generate. by simplify_map_eq. Qed.

(** C5. For every environment and each of the three builder names: a
    builder that is in [BUILDERS] under that name before [generate] is
    there unchanged after it, and a second [generate] leaves the
    builders of the first as they are. *)
Theorem C5_registration_idempotent
    (Detect : environment -> string -> option string) (env : environment) :
  (forall name bld,
     In name ["ProtocCPP"; "ProtocPython"; "ProtocJava"] ->
     BUILDERS env !! name = Some bld ->
     BUILDERS (generate Detect env) !! name = Some bld)
  /\ (forall Detect',
        BUILDERS (generate Detect' (generate Detect env))
        = BUILDERS (generate Detect env)).
Proof.
  split.
  - intros name bld _ H. rewrite BUILDERS_generate. apply add_builders_keeps, H.
  - intros Detect'. rewrite (BUILDERS_generate Detect').
    unfold add_builders at 1. simpl.
    rewrite (add_builder_noop _ ("ProtocCPP", ProtocCPPBuilder)),
      (add_builder_noop _ ("ProtocPython", ProtocPythonBuilder)),
      (add_builder_noop _ ("ProtocJava", ProtocJavaBuilder));
      [reflexivity | rewrite BUILDERS_generate; apply add_builders_present; simpl; tauto ..].
Qed.

Lemma C5_registration_idempotent_witness :
  BUILDERS (generate not_found (set_builder "ProtocCPP" custom_builder (Env ∅ ∅)))
    !! "ProtocCPP" = Some custom_builder.
Proof.
  apply (C5_registration_idempotent not_found
           (set_builder "ProtocCPP" custom_builder (Env ∅ ∅))).
  - simpl. tauto.
  - reflexivity.
Defined.

(** C6, as the specification states it, fails: a variable that the
    caller set before [generate] does not keep its value. *)
Lemma C6_counterexample :
  ~ (forall (Detect : environment -> string -> option string)
            (env : environment) (key : string) (v : value),
       vars env !! key = Some v -> vars (generate Detect env) !! key = Some v).
Proof.
  intros H.
  specialize (H not_found (setitem "PROTOCOUTDIR" (VStr "gen") (Env ∅ ∅))
                "PROTOCOUTDIR" (VStr "gen") eq_refl).
  rewrite (generate_default _ _ "PROTOCOUTDIR" (VStr "${SOURCE.dir}")) in H.
  - discriminate.
  - simpl. tauto.
Qed.

(** C6, amended. [generate] assigns its variables without a test: after
    it each of them holds its default, whatever the environment held
    before, and [PROTOC] holds what the detection gives or ['protoc'].
    Every other variable keeps the value it had. *)
Theorem C6_defaults_assigned
    (Detect : environment -> string -> option string) (env : environment) :
  (forall key v, In (key, v) default_values ->
     vars (generate Detect env) !! key = Some v)
  /\ vars (generate Detect env) !! "PROTOC"
     = Some (VStr (or_protoc (Detect (add_builders env) protocs)))
  /\ (forall key, ~ In key generated_keys ->
        vars (generate Detect env) !! key = vars env !! key).
Proof.
  split; [|split].
  - apply generate_default.
  - apply generate_PROTOC.
  - apply generate_other_key.
Qed.

Lemma C6_defaults_assigned_witness :
  let env := setitem "CC" (VStr "gcc") (setitem "PROTOCOUTDIR" (VStr "gen") (Env ∅ ∅)) in
  vars (generate not_found env) !! "PROTOCOUTDIR" = Some (VStr "${SOURCE.dir}")
  /\ vars (generate not_found env) !! "CC" = Some (VStr "gcc").
Proof.
  intros env. split.
  - apply (C6_defaults_assigned not_found env). simpl. tauto.
  - transitivity (vars env !! "CC"); [|reflexivity].
    apply (C6_defaults_assigned not_found env).
    simpl. intros H. repeat (destruct H as [H|H]; [discriminate H|]). exact H.
Defined.

(** C9. When the detection finds nothing, [generate] sets [PROTOC] to
    ['protoc']; when it finds a program, [PROTOC] is what it returned.
    Nothing else of the installation depends on it: the builders and
    every other variable are the same whatever the detection gives.
    ([generate] has no failing step: it is a total function.) *)
Theorem C9_missing_executable
    (Detect : environment -> string -> option string) (env : environment) :
  let found := Detect (add_builders env) protocs in
  (found = None -> vars (generate Detect env) !! "PROTOC" = Some (VStr "protoc"))
  /\ (forall p, found = Some p -> p <> EmptyString ->
        vars (generate Detect env) !! "PROTOC" = Some (VStr p))
  /\ (forall Detect',
        BUILDERS (generate Detect' env) = BUILDERS (generate Detect env)
        /\ forall key, key <> "PROTOC" ->
             vars (generate Detect' env) !! key = vars (generate Detect env) !! key).
Proof.
  intros found. split; [|split].
  - intros H. rewrite generate_PROTOC. fold found. rewrite H. reflexivity.
  - intros p H Hp. rewrite generate_PROTOC. fold found. rewrite H. simpl.
    destruct (String.eqb_spec p EmptyString); [contradiction | reflexivity].
  - intros Detect'. split; [reflexivity|].
    intros key Hkey. rewrite !vars_generate.
    do 11 apply lookup_insert_cong.
    rewrite !lookup_insert_ne by congruence. reflexivity.
Qed.

Lemma C9_missing_executable_witness :
  vars (generate not_found (Env ∅ ∅)) !! "PROTOC" = Some (VStr "protoc")
  /\ vars (generate (fun _ _ => Some "/usr/bin/protoc") (Env ∅ ∅)) !! "PROTOC"
     = Some (VStr "/usr/bin/protoc").
Proof.
  split.
  - apply (proj1 (C9_missing_executable not_found (Env ∅ ∅))). reflexivity.
  - apply (proj1 (proj2 (C9_missing_executable
                           (fun _ _ => Some "/usr/bin/protoc") (Env ∅ ∅)))).
    + reflexivity.
    + discriminate.
Defined.

(** ** The command line *)

(** *** The scanner on text *)

Lemma snoc_app (acc : string) (c : ascii) (s : string) :
  Subst.snoc acc c +:+ s = acc +:+ String c s.
Proof. unfold Subst.snoc. rewrite str_app_assoc. reflexivity. Qed.

Lemma scan_text (s acc : string) :
  clean s = true -> Subst.scan (Subst.InText acc) s = [Subst.Text (acc +:+ s)].
Proof.
  revert acc. induction s as [|c s IH]; intros acc H.
  - simpl. rewrite str_app_nil_r. reflexivity.
  - unfold clean in H. simpl in H.
    apply andb_prop in H as [Hc Hs]. apply andb_prop in Hc as [Hsp Hd].
    apply negb_true_iff in Hsp, Hd. simpl. rewrite Hsp, Hd. simpl.
    rewrite (IH _ Hs), snoc_app. reflexivity.
Qed.

Lemma separate_args_clean (s : string) :
  clean s = true ->
  Subst.separate_args s = if String.eqb s EmptyString then [] else [Subst.Text s].
Proof.
  destruct s as [|c s]; [reflexivity|]. intros H.
  unfold Subst.separate_args. simpl Subst.scan.
  unfold clean in H. simpl in H.
  apply andb_prop in H as [Hc Hs]. apply andb_prop in Hc as [Hsp Hd].
  apply negb_true_iff in Hsp, Hd. unfold Subst.enter. rewrite Hsp, Hd.
  rewrite (scan_text s _ Hs). reflexivity.
Qed.

Lemma plain_clean (s : string) : plain s = true -> clean s = true.
Proof. unfold plain. intros H. apply andb_prop in H. tauto. Qed.

Lemma separate_args_plain (s : string) :
  plain s = true -> Subst.separate_args s = [Subst.Text s].
Proof.
  intros H. rewrite separate_args_clean by (apply plain_clean, H).
  unfold plain in H. apply andb_prop in H as [H _].
  apply negb_true_iff in H. rewrite H. reflexivity.
Qed.

Lemma clean_app (a b : string) :
  clean a = true -> clean b = true -> clean (a +:+ b) = true.
Proof.
  intros Ha Hb. induction a as [|c a IH]; [exact Hb|].
  rewrite str_app_cons. unfold clean in *. simpl in *.
  apply andb_prop in Ha as [Hc Ha]. rewrite Hc, (IH Ha). reflexivity.
Qed.

Lemma plain_app (a b : string) :
  plain a = true -> clean b = true -> plain (a +:+ b) = true.
Proof.
  intros Ha Hb. unfold plain. rewrite (clean_app a b (plain_clean a Ha) Hb).
  destruct a as [|c a]; [discriminate Ha|]. reflexivity.
Qed.

(** *** The substitution of text *)

Lemma substitute_clean (fuel : nat) (env : environment) (lv : Subst.lvars)
    (wl : bool) (s : string) (st : Subst.subber) :
  clean s = true ->
  Subst.substitute (S fuel) env lv wl s st
  = Ok (if String.eqb s EmptyString then st else Subst.append s st).
Proof.
  intros H. simpl. rewrite (separate_args_clean s H).
  destruct (String.eqb s EmptyString); reflexivity.
Qed.

Lemma substitute_plain (fuel : nat) (env : environment) (lv : Subst.lvars)
    (wl : bool) (s : string) (st : Subst.subber) :
  plain s = true ->
  Subst.substitute (S fuel) env lv wl s st = Ok (Subst.append s st).
Proof.
  intros H. simpl. rewrite (separate_args_plain s H). reflexivity.
Qed.

Lemma subst_list_value (fuel : nat) (env : environment) (lv : Subst.lvars)
    (l ws : list string) :
  forallb plain l = true ->
  Subst.subst_value (Subst.substitute (S fuel) env) lv (Subst.PList l)
    (Subst.Subber ws true)
  = Ok (Subst.Subber (rev l ++ ws) true).
Proof.
  unfold Subst.subst_value. revert ws.
  induction l as [|a l IH]; intros ws H; [reflexivity|].
  simpl in H. apply andb_prop in H as [Ha Hl].
  cbn [foldM]. rewrite (substitute_plain fuel env lv true a _ Ha).
  cbn [rev]. rewrite <- app_assoc. cbn [app].
  rewrite <- (IH (a :: ws) Hl). reflexivity.
Qed.

Lemma subst_nodes_value
    (rec : Subst.lvars -> bool -> string -> Subst.subber -> result Subst.subber)
    (lv : Subst.lvars) (l ws : list string) :
  Subst.subst_value rec lv (Subst.PNodes l) (Subst.Subber ws true)
  = Ok (Subst.Subber (rev l ++ ws) true).
Proof.
  unfold Subst.subst_value. revert ws.
  induction l as [|a l IH]; intros ws; [reflexivity|].
  cbn [foldM rev]. rewrite <- app_assoc. cbn [app].
  rewrite <- (IH (a :: ws)). reflexivity.
Qed.

(** *** The evaluation of the variables *)

Lemma bind_Ok {A B} (a : A) (k : A -> result B) : (x ← Ok a; k x) = k a.
Proof. reflexivity. Qed.

Lemma lookup_name_ordinary (env : environment) (lv : Subst.lvars) (key : string) :
  Subst.in_list key ["SOURCES"; "TARGETS"; "SOURCE"; "TARGET"; "BUILDERS"] = false ->
  Subst.in_list key (Subst.blanked lv) = false ->
  Subst.lookup_name env lv key = Ok (Subst.to_pyval <$> vars env !! key).
Proof.
  intros Hk Hb. unfold Subst.lookup_name. rewrite Hb.
  unfold Subst.in_list in Hk. cbn [existsb] in Hk.
  apply orb_false_elim in Hk as [H1 Hk]. apply orb_false_elim in Hk as [H2 Hk].
  rewrite H1, H2. unfold Subst.in_list at 1. cbn [existsb]. rewrite Hk.
  destruct (vars env !! key) as [[s|l]|]; reflexivity.
Qed.

Lemma eval_ordinary (env : environment) (lv : Subst.lvars) (key : string) :
  ordinary key = true ->
  Subst.in_list key (Subst.blanked lv) = false ->
  Subst.eval env lv key = Ok (Subst.to_pyval <$> vars env !! key).
Proof.
  unfold ordinary. intros H Hb.
  repeat (apply andb_prop in H as [H ?]).
  repeat match goal with
         | H : negb _ = true |- _ => apply negb_true_iff in H
         end.
  unfold Subst.eval.
  repeat match goal with
         | H : String.eqb key _ = false |- _ => rewrite H; clear H
         end.
  match goal with H : Subst.is_name key = true |- _ => rewrite H end.
  apply lookup_name_ordinary; assumption.
Qed.

Lemma expand_Var_value
    (rec : Subst.lvars -> bool -> string -> Subst.subber -> result Subst.subber)
    (env : environment) (lv : Subst.lvars) (wl : bool) (key : string)
    (v : Subst.pyval) (st : Subst.subber) :
  Subst.eval env lv key = Ok (Some v) ->
  Subst.expand rec env lv wl (Subst.Var key) st
  = (st' ← Subst.subst_value rec (Subst.blank key lv) v st; Ok (Subst.this_word st')).
Proof. intros H. unfold Subst.expand. rewrite H. reflexivity. Qed.

Lemma expand_Var_unset
    (rec : Subst.lvars -> bool -> string -> Subst.subber -> result Subst.subber)
    (env : environment) (lv : Subst.lvars) (wl : bool) (key : string)
    (st : Subst.subber) :
  Subst.eval env lv key = Ok None ->
  Subst.expand rec env lv wl (Subst.Var key) st = Ok st.
Proof. intros H. unfold Subst.expand. rewrite H. reflexivity. Qed.

Lemma substitute_S (fuel : nat) (env : environment) (lv : Subst.lvars)
    (wl : bool) (s : string) (st : Subst.subber) :
  Subst.substitute (S fuel) env lv wl s st
  = foldM (fun st a => Subst.expand (Subst.substitute fuel env) env lv wl a st)
          (Subst.separate_args s) st.
Proof. reflexivity. Qed.

Lemma expand_space
    (rec : Subst.lvars -> bool -> string -> Subst.subber -> result Subst.subber)
    (env : environment) (lv : Subst.lvars) (st : Subst.subber) :
  Subst.expand rec env lv false (Subst.White " ") st = Ok (Subst.next_word st).
Proof. reflexivity. Qed.

Lemma expand_Text
    (rec : Subst.lvars -> bool -> string -> Subst.subber -> result Subst.subber)
    (env : environment) (lv : Subst.lvars) (wl : bool) (t : string)
    (st : Subst.subber) :
  Subst.expand rec env lv wl (Subst.Text t) st = Ok (Subst.append t st).
Proof. reflexivity. Qed.

Ltac norm_state :=
  unfold Subst.append, Subst.next_word, Subst.this_word, Subst.add_new_word;
  cbn [Subst.rwords Subst.fresh].

Lemma eval_include (env : environment) (lv : Subst.lvars) (incs : list string) :
  Subst.in_list "PROTOCPROTOPATH" (Subst.blanked lv) = false ->
  vars env !! "PROTOCPROTOPATH" = Some (VCLVar incs) ->
  Subst.eval env lv Subst.include_expr
  = Ok (Some (Subst.PList (map (String.append "-I") incs))).
Proof.
  intros Hb H. unfold Subst.eval. rewrite String.eqb_refl.
  rewrite lookup_name_ordinary, H by (reflexivity || assumption). reflexivity.
Qed.

Lemma eval_fdsout (env : environment) (lv : Subst.lvars) (fds : option string) :
  Subst.in_list "PROTOCFDSOUT" (Subst.blanked lv) = false ->
  vars env !! "PROTOCFDSOUT" = VStr <$> fds ->
  Subst.eval env lv Subst.fdsout_expr
  = Ok ((fun p => Subst.PStr (if String.eqb p EmptyString then EmptyString
                              else "-o" +:+ p)) <$> fds).
Proof.
  intros Hb H. unfold Subst.eval.
  replace (String.eqb Subst.fdsout_expr Subst.include_expr) with false by reflexivity.
  rewrite String.eqb_refl.
  rewrite lookup_name_ordinary, H by (reflexivity || assumption).
  destruct fds; reflexivity.
Qed.

Lemma eval_SOURCES (env : environment) (lv : Subst.lvars) :
  Subst.in_list "SOURCES" (Subst.blanked lv) = false ->
  Subst.eval env lv "SOURCES" = Ok (Some (Subst.PNodes (Subst.SOURCES lv))).
Proof.
  intros Hb. unfold Subst.eval.
  replace (String.eqb "SOURCES" Subst.include_expr) with false by reflexivity.
  replace (String.eqb "SOURCES" Subst.fdsout_expr) with false by reflexivity.
  cbn -[Subst.lookup_name]. unfold Subst.lookup_name. rewrite Hb. reflexivity.
Qed.

Lemma forallb_plain_include (incs : list string) :
  forallb clean incs = true ->
  forallb plain (map (String.append "-I") incs) = true.
Proof.
  induction incs as [|a incs IH]; [reflexivity|]. simpl.
  intros H. apply andb_prop in H as [Ha Hi].
  rewrite (IH Hi), andb_true_r. apply (plain_app "-I" a); [reflexivity | exact Ha].
Qed.

(** *** The three parts of the command *)

Section Command.

Variables (env : environment) (exe : string) (incs flags : list string)
          (fds : option string) (l : language) (dir : string).
Hypothesis Hcfg : configured env exe incs flags fds l dir.
Variables (fuel : nat) (target source : list string) (d : string).
Hypothesis Hdir : outdir_word source dir d.

Lemma tokens_start :
  Subst.separate_args PROTOCCOM_START
  = [Subst.Var "PROTOC"; Subst.White " "; Subst.Var Subst.include_expr;
     Subst.White " "; Subst.Var "PROTOCFLAGS"; Subst.White " ";
     Subst.Var Subst.fdsout_expr].
Proof. reflexivity. Qed.

Lemma expand_start (ws : list string) :
  Subst.expand (Subst.substitute (S (S fuel)) env) env
    (Subst.initial_lvars target source) false
    (Subst.Var "PROTOCCOM_START") (Subst.Subber ws true)
  = Ok (Subst.Subber
          (rev (exe :: map (String.append "-I") incs ++ flags ++ fdsout_flag fds) ++ ws)
          false).
Proof.
  destruct Hcfg.
  rewrite (expand_Var_value _ _ _ _ _ (Subst.PStr PROTOCCOM_START));
    [|rewrite eval_ordinary, cfg_start0; reflexivity].
  unfold Subst.subst_value. rewrite substitute_S, tokens_start.
  cbn [foldM].
  (* $PROTOC *)
  rewrite (expand_Var_value _ _ _ _ _ (Subst.PStr exe));
    [|rewrite eval_ordinary, cfg_exe0; reflexivity].
  unfold Subst.subst_value at 1. rewrite substitute_plain by assumption.
  rewrite !bind_Ok, expand_space. norm_state. rewrite bind_Ok.
  (* the include directories *)
  rewrite (expand_Var_value _ _ _ _ _ (Subst.PList (map (String.append "-I") incs)));
    [|apply eval_include; [reflexivity | assumption]].
  rewrite subst_list_value by (apply forallb_plain_include; assumption).
  rewrite !bind_Ok, expand_space. norm_state. rewrite bind_Ok.
  (* $PROTOCFLAGS *)
  rewrite (expand_Var_value _ _ _ _ _ (Subst.PList flags));
    [|rewrite eval_ordinary, cfg_flags0; reflexivity].
  rewrite subst_list_value by assumption.
  rewrite !bind_Ok, expand_space. norm_state. rewrite bind_Ok.
  (* the descriptor set *)
  assert (Hrev : forall tail : list string,
            rev (exe :: map (String.append "-I") incs ++ flags ++ tail) ++ ws
            = rev tail ++ rev flags ++ rev (map (String.append "-I") incs) ++ exe :: ws).
  { intros tail. cbn [rev]. rewrite !rev_app_distr, <- !List.app_assoc. reflexivity. }
  rewrite Hrev.
  destruct fds as [p|].
  - rewrite (expand_Var_value _ _ _ _ _
               (Subst.PStr (if String.eqb p EmptyString then EmptyString else "-o" +:+ p)));
      [|rewrite (eval_fdsout _ _ (Some p)); [reflexivity | reflexivity | assumption]].
    unfold Subst.subst_value, fdsout_flag.
    destruct (String.eqb_spec p EmptyString) as [->|Hp].
    + rewrite substitute_clean by reflexivity. reflexivity.
    + rewrite substitute_plain; [reflexivity|].
      apply (plain_app "-o" p); [reflexivity | apply cfg_fds_clean0; reflexivity].
  - rewrite expand_Var_unset;
      [|rewrite (eval_fdsout _ _ None); [reflexivity | reflexivity | assumption]].
    reflexivity.
Qed.

Lemma tokens_flag :
  Subst.separate_args (lang_option l +:+ "${" +:+ lang_outdir_var l +:+ "}")
  = [Subst.Text (lang_option l); Subst.Var (lang_outdir_var l)].
Proof. destruct l; reflexivity. Qed.

Lemma expand_flag (ws : list string) :
  Subst.expand (Subst.substitute (S (S fuel)) env) env
    (Subst.initial_lvars target source) false
    (Subst.Var (lang_flag_var l)) (Subst.Subber ws true)
  = Ok (Subst.Subber ((lang_option l +:+ d) :: ws) false).
Proof.
  destruct Hcfg.
  rewrite (expand_Var_value _ _ _ _ _
             (Subst.PStr (lang_option l +:+ "${" +:+ lang_outdir_var l +:+ "}")));
    [|rewrite eval_ordinary, cfg_flag0; solve [reflexivity | destruct l; reflexivity]].
  unfold Subst.subst_value. rewrite substitute_S, tokens_flag.
  cbn [foldM]. rewrite expand_Text. norm_state. rewrite bind_Ok.
  rewrite (expand_Var_value _ _ _ _ _ (Subst.PStr dir));
    [|rewrite eval_ordinary, cfg_dir0; solve [reflexivity | destruct l; reflexivity]].
  unfold Subst.subst_value.
  assert (Hcur : forall x, Subst.append x (Subst.Subber (lang_option l :: ws) false)
                           = Subst.Subber ((lang_option l +:+ x) :: ws) false).
  { intros x. unfold Subst.append. cbn [Subst.fresh].
    unfold Subst.add_to_current_word. cbn [Subst.rwords].
    replace (Subst.ends_with_redirect (lang_option l)) with false
      by (destruct l; reflexivity).
    reflexivity. }
  destruct Hdir as [dir Hclean | src rest Hsrc].
  - rewrite substitute_clean by assumption. rewrite !bind_Ok.
    destruct (String.eqb_spec dir EmptyString) as [->|Hd].
    + rewrite str_app_nil_r. reflexivity.
    + rewrite Hcur. reflexivity.
  - rewrite substitute_S.
    replace (Subst.separate_args "${SOURCE.dir}") with [Subst.Var "SOURCE.dir"]
      by reflexivity.
    cbn [foldM].
    rewrite (expand_Var_value _ _ _ _ _ (Subst.PNode (Subst.node_dir src)));
      [|rewrite Hsrc; destruct l; reflexivity].
    unfold Subst.subst_value. rewrite !bind_Ok, Hcur. reflexivity.
Qed.

Lemma expand_end (ws : list string) :
  Subst.expand (Subst.substitute (S (S fuel)) env) env
    (Subst.initial_lvars target source) false
    (Subst.Var "PROTOCCOM_END") (Subst.Subber ws true)
  = Ok (Subst.Subber (rev source ++ ws) false).
Proof.
  destruct Hcfg.
  rewrite (expand_Var_value _ _ _ _ _ (Subst.PStr "${SOURCES}"));
    [|rewrite eval_ordinary, cfg_end0; reflexivity].
  unfold Subst.subst_value at 1. rewrite substitute_S.
  replace (Subst.separate_args "${SOURCES}") with [Subst.Var "SOURCES"] by reflexivity.
  cbn [foldM].
  rewrite (expand_Var_value _ _ _ _ _ (Subst.PNodes source));
    [|rewrite eval_SOURCES; reflexivity].
  rewrite subst_nodes_value. reflexivity.
Qed.

Lemma tokens_action :
  Subst.separate_args (act_cmd (lang_action l))
  = [Subst.Var "PROTOCCOM_START"; Subst.White " "; Subst.Var (lang_flag_var l);
     Subst.White " "; Subst.Var "PROTOCCOM_END"].
Proof. destruct l; reflexivity. Qed.

(** The command line of a configuration, with fuel for three levels of
    values inside values. *)
Lemma command_line_configured :
  command_line (S (S (S fuel))) env (lang_action l) target source
  = Ok (exe :: map (String.append "-I") incs ++ flags ++ fdsout_flag fds
        ++ [lang_option l +:+ d] ++ source).
Proof.
  unfold command_line, Subst.subst_list.
  rewrite substitute_S, tokens_action.
  cbn [foldM].
  rewrite expand_start, bind_Ok, expand_space. norm_state.
  rewrite bind_Ok, expand_flag, bind_Ok, expand_space. norm_state.
  rewrite bind_Ok, expand_end, !bind_Ok.
  cbn [Subst.rwords]. f_equal.
  rewrite app_nil_r, rev_app_distr, rev_involutive.
  cbn [rev]. rewrite rev_app_distr, rev_involutive. cbn [rev app].
  rewrite <- !List.app_assoc. reflexivity.
Qed.

End Command.

Lemma generate_configured (Detect : environment -> string -> option string)
    (env : environment) (fds : option string) (l : language) :
  vars env !! "PROTOCFDSOUT" = VStr <$> fds ->
  (forall p, fds = Some p -> clean p = true) ->
  plain (or_protoc (Detect (add_builders env) protocs)) = true ->
  configured (generate Detect env) (or_protoc (Detect (add_builders env) protocs))
    [] [] fds l (default_outdir l).
Proof.
  intros Hfds Hclean Hexe.
  constructor; try assumption; try reflexivity;
    try (apply generate_default; destruct l; simpl; tauto).
  - apply generate_PROTOC.
  - rewrite generate_other_key; [exact Hfds|].
    simpl. intros H. repeat (destruct H as [H|H]; [discriminate H|]). exact H.
Qed.

(** C8. For every configuration (the command strings as [generate] sets
    them; the executable, the flags and the paths free of white space
    and of [$]), every language and every list of sources, the words of
    the command line are, in this order: the executable, one [-I<dir>]
    for each include directory in the order of [PROTOCPROTOPATH], the
    global flags, [-o<path>] when a descriptor-set path is set (and not
    empty) and nothing otherwise, the output flag of the language, and
    the sources. Fuel for three levels of substitution is enough. *)
Theorem C8_command_order (env : environment) (exe : string)
    (incs flags : list string) (fds : option string) (l : language)
    (dir d : string) (fuel : nat) (target source : list string) :
  configured env exe incs flags fds l dir ->
  outdir_word source dir d ->
  3 <= fuel ->
  command_line fuel env (lang_action l) target source
  = Ok ([exe] ++ map (String.append "-I") incs ++ flags ++ fdsout_flag fds
        ++ [lang_option l +:+ d] ++ source).
Proof.
  intros Hcfg Hdir Hfuel.
  destruct fuel as [|[|[|fuel]]]; [lia ..|].
  apply (command_line_configured env exe incs flags fds l dir Hcfg fuel target source d Hdir).
Qed.

Lemma C8_command_order_witness :
  command_line 3 example_env_emitted ProtocCPPAction [] ["bar.proto"]
  = Ok ["protoc"; "-Ifoo"; "-oall.fds"; "--cpp_out=gen"; "bar.proto"].
Proof.
  apply (C8_command_order example_env_emitted "protoc" ["foo"] [] (Some "all.fds")
           Cpp "gen" "gen" 3 [] ["bar.proto"]).
  - constructor; try reflexivity. intros p [= <-]. reflexivity.
  - apply outdir_text. reflexivity.
  - lia.
Defined.

(** ** What the emitter writes *)

Lemma emitter_env (d : string) (target : list value) (source : list string)
    (env : environment) (lang : string) :
  (_ProtocEmitter d target source env lang).1 = Prepend "PROTOCPROTOPATH" d env.
Proof. reflexivity. Qed.

Lemma split_go_plain (s cur : string) :
  clean s = true ->
  Py.split_go cur s
  = if String.eqb (cur +:+ s) EmptyString then [] else [cur +:+ s].
Proof.
  revert cur. induction s as [|c s IH]; intros cur H.
  - simpl. rewrite str_app_nil_r. reflexivity.
  - unfold clean in H. simpl in H.
    apply andb_prop in H as [Hc Hs]. apply andb_prop in Hc as [Hsp _].
    apply negb_true_iff in Hsp. simpl. rewrite Hsp.
    rewrite (IH _ Hs), str_app_assoc. reflexivity.
Qed.

Lemma CLVar_plain (d : string) : plain d = true -> CLVar d = [d].
Proof.
  intros H. unfold CLVar, Py.split.
  rewrite split_go_plain by (apply plain_clean, H). rewrite str_app_nil_l.
  unfold plain in H. apply andb_prop in H as [H _].
  apply negb_true_iff in H. rewrite H. reflexivity.
Qed.

Lemma Prepend_include_path (d : string) (env : environment) (incs : list string) :
  vars env !! "PROTOCPROTOPATH" = Some (VCLVar incs) ->
  vars (Prepend "PROTOCPROTOPATH" d env) !! "PROTOCPROTOPATH"
  = Some (VCLVar (CLVar d ++ incs)).
Proof.
  intros H. unfold Prepend. rewrite H. simpl. apply lookup_insert_eq.
Qed.

Lemma emit_times_other (n : nat) (d : string) (target : list value)
    (source : list string) (lang : string) (env : environment) (key : string) :
  key <> "PROTOCPROTOPATH" ->
  vars (emit_times n d target source lang env) !! key = vars env !! key.
Proof.
  intros Hkey. revert env. induction n as [|n IH]; intros env; [reflexivity|].
  cbn [emit_times]. rewrite IH, emitter_env. apply vars_Prepend_ne. congruence.
Qed.

Lemma emit_times_include_path (n : nat) (d : string) (target : list value)
    (source : list string) (lang : string) (env : environment)
    (incs : list string) :
  plain d = true ->
  vars env !! "PROTOCPROTOPATH" = Some (VCLVar incs) ->
  vars (emit_times n d target source lang env) !! "PROTOCPROTOPATH"
  = Some (VCLVar (repeat d n ++ incs)).
Proof.
  intros Hd. revert env incs. induction n as [|n IH]; intros env incs H; [exact H|].
  cbn [emit_times]. rewrite (IH _ (d :: incs)).
  - cbn [repeat]. rewrite repeat_cons, <- List.app_assoc. reflexivity.
  - rewrite emitter_env, (Prepend_include_path d env incs H), (CLVar_plain d Hd).
    reflexivity.
Qed.

Lemma forallb_app_repeat (d : string) (n : nat) (incs : list string) :
  clean d = true -> forallb clean incs = true ->
  forallb clean (repeat d n ++ incs) = true.
Proof.
  intros Hd Hi. induction n as [|n IH]; [exact Hi|].
  simpl. rewrite Hd, IH. reflexivity.
Qed.

Lemma emit_times_configured (n : nat) (d : string) (target : list value)
    (source : list string) (lang : string) (env : environment)
    (exe : string) (incs flags : list string) (fds : option string)
    (l : language) (dir : string) :
  plain d = true ->
  configured env exe incs flags fds l dir ->
  configured (emit_times n d target source lang env) exe (repeat d n ++ incs)
    flags fds l dir.
Proof.
  intros Hd [].
  constructor; try assumption;
    try (rewrite emit_times_other; [assumption | solve [discriminate | destruct l; discriminate]]).
  - apply emit_times_include_path; assumption.
  - apply forallb_app_repeat; [apply plain_clean, Hd | assumption].
Qed.

(** C7, as the specification states it, fails: the emitter does not
    leave the environment as it was. *)
Lemma C7_counterexample :
  ~ (forall (d : string) (target : list value) (source : list string)
            (env : environment) (lang : string),
       (_ProtocEmitter d target source env lang).1 = env).
Proof.
  intros H. specialize (H "foo" [] ["foo/bar.proto"] example_env "cpp").
  apply (f_equal (fun e => vars e !! "PROTOCPROTOPATH")) in H.
  rewrite emitter_env, (Prepend_include_path "foo" example_env []) in H by reflexivity.
  discriminate H.
Qed.

(** C7, amended. The emitter writes one variable of the environment,
    [PROTOCPROTOPATH]: the builders and every other variable are after
    it what they were before. The construction of the command writes
    nothing: the environment is after it what it was before. *)
Theorem C7_emitter_frame (d : string) (target : list value)
    (source : list string) (env : environment) (lang : string) :
  BUILDERS (_ProtocEmitter d target source env lang).1 = BUILDERS env
  /\ (forall key, key <> "PROTOCPROTOPATH" ->
        vars (_ProtocEmitter d target source env lang).1 !! key = vars env !! key)
  /\ (forall fuel act tg src, (execute_action fuel act tg src env).1 = env).
Proof.
  split; [|split].
  - rewrite emitter_env. apply BUILDERS_Prepend.
  - intros key Hkey. rewrite emitter_env. apply vars_Prepend_ne. congruence.
  - reflexivity.
Qed.

Lemma C7_emitter_frame_witness :
  vars (_ProtocEmitter "foo" [] ["foo/bar.proto"] example_env "cpp").1 !! "PROTOCOUTDIR"
  = Some (VStr "gen").
Proof.
  transitivity (vars example_env !! "PROTOCOUTDIR"); [|reflexivity].
  apply (C7_emitter_frame "foo" [] ["foo/bar.proto"] example_env "cpp").
  discriminate.
Defined.

(** C10. Every run of the emitter, for any language, any sources and
    any targets, puts the directory of the calling SConscript (a path
    with no white space and no [$]) in front of the list
    [PROTOCPROTOPATH]. After [n] runs the list has [n] more entries for
    that directory, so there is no bound on its length, and a command
    built afterwards has one more [-I] flag for each run. *)
Theorem C10_include_path_grows (d : string) (target : list value)
    (source : list string) (lang : string) (env : environment)
    (incs : list string) :
  plain d = true ->
  vars env !! "PROTOCPROTOPATH" = Some (VCLVar incs) ->
  vars (_ProtocEmitter d target source env lang).1 !! "PROTOCPROTOPATH"
    = Some (VCLVar (d :: incs))
  /\ (forall n,
        vars (emit_times n d target source lang env) !! "PROTOCPROTOPATH"
        = Some (VCLVar (repeat d n ++ incs))
        /\ length (repeat d n ++ incs) = n + length incs)
  /\ (forall n exe flags fds l dir w fuel tg src,
        configured env exe incs flags fds l dir ->
        outdir_word src dir w ->
        3 <= fuel ->
        command_line fuel (emit_times n d target source lang env)
          (lang_action l) tg src
        = Ok ([exe] ++ map (String.append "-I") (repeat d n ++ incs) ++ flags
              ++ fdsout_flag fds ++ [lang_option l +:+ w] ++ src)).
Proof.
  intros Hd Hincs. split; [|split].
  - rewrite emitter_env, (Prepend_include_path d env incs Hincs), (CLVar_plain d Hd).
    reflexivity.
  - intros n. split.
    + apply emit_times_include_path; assumption.
    + rewrite length_app, repeat_length. reflexivity.
  - intros n exe flags fds l dir w fuel tg src Hcfg Hw Hfuel.
    destruct fuel as [|[|[|fuel]]]; [lia ..|].
    apply (command_line_configured _ exe (repeat d n ++ incs) flags fds l dir
             (emit_times_configured n d target source lang env exe incs flags fds l dir
                Hd Hcfg)
             fuel tg src w Hw).
Qed.

Lemma C10_include_path_grows_witness :
  vars (emit_times 3 "foo" [] ["foo/bar.proto"] "cpp" example_env) !! "PROTOCPROTOPATH"
  = Some (VCLVar ["foo"; "foo"; "foo"]).
Proof.
  apply (C10_include_path_grows "foo" [] ["foo/bar.proto"] "cpp" example_env []);
    reflexivity.
Defined.

(** ** More about the path resolver *)

Lemma commonprefix_app (p a b : string) :
  os_path.commonprefix (p +:+ a) (p +:+ b) = p +:+ os_path.commonprefix a b.
Proof.
  induction p as [|c p IH]; [reflexivity|].
  rewrite !str_app_cons. simpl. rewrite ascii_eqb_refl, IH. reflexivity.
Qed.

Lemma slice_from_add (n : nat) (a b : string) :
  Py.slice_from (Py.len a + n) (a +:+ b) = Py.slice_from n b.
Proof.
  induction a as [|c a IH]; [reflexivity|].
  rewrite str_app_cons. exact IH.
Qed.

(** X1. Where the base directory and the input path part ways decides
    the result, whatever stands there: when both start with the same
    non-empty [p] and have nothing in common after it, the resolver
    drops [p] and the one character that follows it in the input path,
    a separator or not. A file of a sibling directory loses the first
    character of what is left of its path. *)
Theorem X1_resolver_drops_next_character (p a b : string) :
  p <> EmptyString ->
  os_path.commonprefix a b = EmptyString ->
  corrected_path (p +:+ a) (p +:+ b) = Py.slice_from 1 b.
Proof.
  intros Hp Hab. unfold corrected_path.
  rewrite commonprefix_app, Hab, str_app_nil_r, (len_pos _ Hp), len_app.
  apply slice_from_add.
Qed.

Lemma X1_resolver_drops_next_character_witness :
  corrected_path "foo" "foobar/baz.proto" = "ar/baz.proto"
  /\ corrected_path "src/a" "src/b/x.proto" = "/x.proto".
Proof.
  split.
  - apply (X1_resolver_drops_next_character "foo" "" "bar/baz.proto");
      [discriminate | reflexivity].
  - apply (X1_resolver_drops_next_character "src/" "a" "b/x.proto");
      [discriminate | reflexivity].
Defined.

Lemma len_slice_from (n : nat) (s : string) :
  Py.len (Py.slice_from n s) = Py.len s - n.
Proof.
  revert s. induction n as [|n IH]; intros s; [simpl; lia|].
  destruct s as [|c s]; [reflexivity|]. simpl. apply IH.
Qed.

(** X2. The resolver only ever cuts at the front: the path it returns
    is the end of the input path, so it is never longer, and it puts no
    character in that the input path does not have. *)
Theorem X2_resolver_returns_suffix (base_dir input_path : string) :
  (exists front, input_path = front +:+ corrected_path base_dir input_path)
  /\ Py.len (corrected_path base_dir input_path) <= Py.len input_path.
Proof.
  unfold corrected_path.
  destruct (0 <? Py.len (os_path.commonprefix base_dir input_path)).
  - split.
    + eexists. symmetry. apply slice_to_from.
    + rewrite len_slice_from. lia.
  - split; [exists EmptyString; reflexivity | lia].
Qed.

(** ** More about the emitter *)

Lemma outdir_var_key (lang key : string) :
  outdir_var lang = Some key -> In key outdir_keys.
Proof.
  unfold outdir_var.
  destruct (String.eqb lang "cpp"); [intros [= <-]; simpl; tauto|].
  destruct (String.eqb lang "python"); [intros [= <-]; simpl; tauto|].
  destruct (String.eqb lang "java"); [intros [= <-]; simpl; tauto | discriminate].
Qed.

(** The result of the emitter, read in the environment it was given. *)
Lemma emitter_result (d : string) (target : list value) (source : list string)
    (env : environment) (lang : string) :
  (_ProtocEmitter d target source env lang).2
  = (t ← extend_targets env lang (source_with_corrected_path d source) target;
     Ok (t ++ fdsout_target env, source_with_corrected_path d source)).
Proof.
  unfold _ProtocEmitter. cbn [snd].
  rewrite (extend_targets_ext _ env)
    by (intros key Hkey; apply vars_Prepend_ne, outdir_key_ne, Hkey).
  destruct (extend_targets env lang _ target) as [t|e]; [|reflexivity].
  cbn. unfold append_fdsout, fdsout_target.
  rewrite vars_Prepend_ne by discriminate.
  destruct (vars env !! "PROTOCFDSOUT"); [reflexivity|].
  rewrite app_nil_r. reflexivity.
Qed.

Lemma predict_outputs_key (env : environment) (lang key src : string) :
  outdir_var lang = Some key ->
  predict_outputs env lang src
  = match vars env !! key with
    | None => Raise (KeyError key)
    | Some (VStr dir) => Ok (outputs_of lang dir src)
    | Some (VCLVar _) => Raise TypeError
    end.
Proof.
  unfold outdir_var, predict_outputs, outputs_of, join_outdir.
  destruct (String.eqb lang "cpp").
  { intros [= <-]. destruct (vars env !! "PROTOCOUTDIR") as [[dir|l]|]; reflexivity. }
  destruct (String.eqb lang "python").
  { intros [= <-]. destruct (vars env !! "PROTOCPYTHONOUTDIR") as [[dir|l]|]; reflexivity. }
  destruct (String.eqb lang "java"); [|discriminate].
  intros [= <-]. destruct (vars env !! "PROTOCJAVAOUTDIR") as [[dir|l]|]; reflexivity.
Qed.

Lemma predict_outputs_other (env : environment) (lang src : string) :
  outdir_var lang = None -> predict_outputs env lang src = Ok [].
Proof.
  unfold outdir_var, predict_outputs.
  destruct (String.eqb lang "cpp"); [discriminate|].
  destruct (String.eqb lang "python"); [discriminate|].
  destruct (String.eqb lang "java"); [discriminate | reflexivity].
Qed.

Lemma extend_targets_cons (env : environment) (lang src : string)
    (source : list string) (target : list value) :
  extend_targets env lang (src :: source) target
  = (outs ← predict_outputs env lang src;
     extend_targets env lang source (target ++ outs)).
Proof.
  unfold extend_targets. cbn [foldM].
  destruct (predict_outputs env lang src); reflexivity.
Qed.

(** X3. With the output directory of the language not set, the emitter
    raises [KeyError] for that variable as soon as there is a source,
    and returns the targets as they are (with the descriptor set, if
    any) when there is none. With the variable set to a list instead of
    a string, it raises [TypeError] as soon as there is a source. *)
Theorem X3_emitter_needs_outdir (d : string) (target : list value)
    (source : list string) (env : environment) (lang key : string) :
  outdir_var lang = Some key ->
  (vars env !! key = None ->
   (_ProtocEmitter d target source env lang).2
   = match source with
     | [] => Ok (target ++ fdsout_target env, [])
     | _ :: _ => Raise (KeyError key)
     end)
  /\ (forall l, vars env !! key = Some (VCLVar l) ->
      (_ProtocEmitter d target source env lang).2
      = match source with
        | [] => Ok (target ++ fdsout_target env, [])
        | _ :: _ => Raise TypeError
        end).
Proof.
  intros Hkey. split; [intros Hv | intros l Hv];
    rewrite emitter_result; destruct source as [|src source]; try reflexivity;
    cbn [source_with_corrected_path map]; rewrite extend_targets_cons,
      (predict_outputs_key env lang key _ Hkey), Hv; reflexivity.
Qed.

Lemma X3_emitter_needs_outdir_witness :
  (_ProtocEmitter "foo" [] ["foo/bar.proto"] (Env ∅ ∅) "java").2
  = Raise (KeyError "PROTOCJAVAOUTDIR").
Proof.
  apply (X3_emitter_needs_outdir "foo" [] ["foo/bar.proto"] (Env ∅ ∅) "java"
           "PROTOCJAVAOUTDIR"); reflexivity.
Defined.

(** X4. For a language that is none of [cpp], [python] and [java] the
    emitter adds no target for any source and reads no output directory:
    in every environment it returns the targets it was given, with the
    descriptor set after them if one is set, and the corrected sources. *)
Theorem X4_emitter_unknown_language (d : string) (target : list value)
    (source : list string) (env : environment) (lang : string) :
  outdir_var lang = None ->
  (_ProtocEmitter d target source env lang).2
  = Ok (target ++ fdsout_target env, source_with_corrected_path d source).
Proof.
  intros Hlang. rewrite emitter_result.
  assert (H : forall src t, extend_targets env lang src t = Ok t).
  { induction src as [|x src IH]; intros t; [reflexivity|].
    rewrite extend_targets_cons, (predict_outputs_other env lang x Hlang).
    cbn. rewrite app_nil_r. apply IH. }
  rewrite H. reflexivity.
Qed.

Lemma X4_emitter_unknown_language_witness :
  (_ProtocEmitter "foo" [VStr "t"] ["foo/bar.proto"] (Env ∅ ∅) "go").2
  = Ok ([VStr "t"], ["bar.proto"]).
Proof.
  rewrite (X4_emitter_unknown_language "foo" [VStr "t"] ["foo/bar.proto"] (Env ∅ ∅) "go")
    by reflexivity.
  reflexivity.
Defined.

Lemma extend_targets_flat_map (env : environment) (lang key dir : string)
    (source : list string) (target : list value) :
  outdir_var lang = Some key ->
  vars env !! key = Some (VStr dir) ->
  extend_targets env lang source target
  = Ok (target ++ flat_map (outputs_of lang dir) source).
Proof.
  intros Hkey Hdir. revert target.
  induction source as [|src source IH]; intros target.
  - cbn. rewrite app_nil_r. reflexivity.
  - rewrite extend_targets_cons, (predict_outputs_key env lang key src Hkey), Hdir.
    cbn. rewrite IH, <- List.app_assoc. reflexivity.
Qed.

Lemma length_outputs_of (lang dir src : string) :
  length (outputs_of lang dir src) = targets_per_source lang.
Proof.
  unfold outputs_of, targets_per_source.
  destruct (String.eqb lang "cpp"); [reflexivity|].
  destruct (String.eqb lang "python"); [reflexivity|].
  destruct (String.eqb lang "java"); reflexivity.
Qed.

Lemma length_flat_map_outputs (lang dir : string) (source : list string) :
  length (flat_map (outputs_of lang dir) source)
  = targets_per_source lang * length source.
Proof.
  induction source as [|src source IH]; [simpl; lia|].
  cbn [flat_map]. rewrite length_app, length_outputs_of, IH. simpl. lia.
Qed.

(** X5. For a list of sources, with the output directory of the
    language set to [dir]: the targets are the targets given, then the
    targets of each corrected source in the order of the sources, then
    the descriptor set if one is set. Their number is the number given
    plus two for each source for [cpp] and one for each source for
    [python] and [java], plus one for the descriptor set. *)
Theorem X5_emitter_targets_in_source_order (d : string) (target : list value)
    (source : list string) (env : environment) (lang key dir : string) :
  outdir_var lang = Some key ->
  vars env !! key = Some (VStr dir) ->
  exists targets,
    (_ProtocEmitter d target source env lang).2
    = Ok (targets, source_with_corrected_path d source)
    /\ targets
       = target
         ++ flat_map (outputs_of lang dir) (source_with_corrected_path d source)
         ++ fdsout_target env
    /\ length targets
       = length target + targets_per_source lang * length source
         + length (fdsout_target env).
Proof.
  intros Hkey Hdir. eexists. split; [|split; [reflexivity|]].
  - rewrite emitter_result, (extend_targets_flat_map env lang key dir _ _ Hkey Hdir).
    cbn. rewrite <- List.app_assoc. reflexivity.
  - rewrite !length_app, length_flat_map_outputs.
    unfold source_with_corrected_path. rewrite length_map. lia.
Qed.

Lemma X5_emitter_targets_in_source_order_witness :
  exists targets,
    (_ProtocEmitter "foo" [] ["foo/a.proto"; "foo/sub/b.proto"] example_env "cpp").2
    = Ok (targets, ["a.proto"; "sub/b.proto"])
    /\ targets
       = [VStr "gen/a.pb.cc"; VStr "gen/a.pb.h";
          VStr "gen/sub/b.pb.cc"; VStr "gen/sub/b.pb.h"]
    /\ length targets = 4.
Proof.
  apply (X5_emitter_targets_in_source_order "foo" [] ["foo/a.proto"; "foo/sub/b.proto"]
           example_env "cpp" "PROTOCOUTDIR" "gen"); reflexivity.
Defined.

Lemma extend_targets_prefix (env : environment) (lang : string)
    (source : list string) (target t : list value) :
  extend_targets env lang source target = Ok t -> exists added, t = target ++ added.
Proof.
  revert target. induction source as [|src source IH]; intros target.
  - intros [= <-]. exists []. rewrite app_nil_r. reflexivity.
  - rewrite extend_targets_cons.
    destruct (predict_outputs env lang src) as [outs|e]; [|discriminate].
    cbn. intros H. destruct (IH _ H) as [added ->].
    exists (outs ++ added). rewrite List.app_assoc. reflexivity.
Qed.

(** X6. Whenever the emitter returns, in any environment and for any
    language, the targets it was given are the start of the targets it
    returns, unchanged and in their order, and it returns as many
    sources as it was given. *)
Theorem X6_emitter_keeps_given_targets (d : string) (target : list value)
    (source : list string) (env : environment) (lang : string)
    (targets : list value) (sources : list string) :
  (_ProtocEmitter d target source env lang).2 = Ok (targets, sources) ->
  (exists added, targets = target ++ added)
  /\ length sources = length source.
Proof.
  rewrite emitter_result.
  destruct (extend_targets env lang _ target) as [t|e] eqn:E; [|discriminate].
  cbn. intros [= <- <-]. split.
  - destruct (extend_targets_prefix _ _ _ _ _ E) as [added ->].
    exists (added ++ fdsout_target env). rewrite List.app_assoc. reflexivity.
  - unfold source_with_corrected_path. apply length_map.
Qed.

Lemma X6_emitter_keeps_given_targets_witness :
  (exists added, [VStr "old.h"; VStr "python/bar_pb2.py"] = [VStr "old.h"] ++ added)
  /\ length ["bar.proto"] = length ["foo/bar.proto"].
Proof.
  apply (X6_emitter_keeps_given_targets "foo" [VStr "old.h"] ["foo/bar.proto"]
           example_env "python").
  reflexivity.
Defined.

Lemma emit_times_outdir (n : nat) (d : string) (target : list value)
    (source : list string) (lang : string) (env : environment) (key : string) :
  In key outdir_keys ->
  vars (emit_times n d target source lang env) !! key = vars env !! key.
Proof.
  intros H. apply emit_times_other. intros ->. exact (outdir_key_ne _ H eq_refl).
Qed.

(** X7. What the emitter returns does not depend on the runs of the
    emitter before it: although each run writes [PROTOCPROTOPATH], a
    call for the same directory, targets, sources and language returns
    the same targets and sources (or raises the same exception) after
    any number of earlier runs, for whatever directory, sources and
    language those were. *)
Theorem X7_emitter_result_repeats (d : string) (target : list value)
    (source : list string) (lang : string) (env : environment)
    (n : nat) (d0 : string) (target0 : list value) (source0 : list string)
    (lang0 : string) :
  (_ProtocEmitter d target source (emit_times n d0 target0 source0 lang0 env) lang).2
  = (_ProtocEmitter d target source env lang).2.
Proof.
  rewrite !emitter_result.
  rewrite (extend_targets_ext _ env) by (intros key Hkey; apply emit_times_outdir, Hkey).
  unfold fdsout_target. rewrite emit_times_other by discriminate. reflexivity.
Qed.

(** ** More about the predicted paths *)

(** X8. The emitter does not look at the extension of a source: two
    sources with the same stem and any two extensions have the same
    targets (or raise the same exception), for every language and
    environment. *)
Theorem X8_outputs_ignore_extension (env : environment) (lang S ext ext' : string) :
  has_stem S -> is_extension ext -> is_extension ext' ->
  predict_outputs env lang (S +:+ ext) = predict_outputs env lang (S +:+ ext').
Proof.
  intros HS [Hdot Hsep] [Hdot' Hsep']. unfold predict_outputs.
  rewrite !splitext_app by assumption. reflexivity.
Qed.

Lemma X8_outputs_ignore_extension_witness :
  predict_outputs example_env "cpp" "a/bar.txt"
  = predict_outputs example_env "cpp" "a/bar.proto".
Proof.
  apply (X8_outputs_ignore_extension example_env "cpp" "a/bar" ".txt" ".proto");
    try reflexivity; split; reflexivity.
Defined.

Lemma rfind_first (c : ascii) (s : string) :
  exists i, Py.rfind c (String c s) = Some i.
Proof.
  simpl. destruct (Py.rfind c s) as [i|]; [eauto|].
  rewrite ascii_eqb_refl. eauto.
Qed.

Lemma stem_absolute (p : string) :
  is_absolute p -> is_absolute (os_path.splitext p).1.
Proof.
  unfold is_absolute. intros Hp.
  destruct p as [|c p]; [discriminate Hp|].
  assert (Hc : c = os_path.sep_char).
  { unfold os_path.sep in Hp. cbn [Py.startswith] in Hp.
    destruct (Ascii.eqb_spec "/"%char c) as [<-|]; [reflexivity | discriminate Hp]. }
  subst c. unfold os_path.splitext.
  destruct (rfind_first os_path.sep_char p) as [i ->].
  destruct (Py.rfind os_path.extsep_char _) as [di|]; [|exact Hp].
  destruct (S i <=? di) eqn:Hle; [|exact Hp].
  destruct (negb _); [|exact Hp].
  apply Nat.leb_le in Hle. destruct di as [|di]; [lia|]. reflexivity.
Qed.

(** X9. A source whose corrected path starts at the root is not put
    under the output directory: [os.path.join] drops the directory in
    front of an absolute path, so the targets are the stem with the
    suffixes of the language, whatever the output directory is. *)
Theorem X9_absolute_source_leaves_outdir (env : environment)
    (lang key dir src : string) :
  is_absolute src ->
  outdir_var lang = Some key ->
  vars env !! key = Some (VStr dir) ->
  os_path.join dir (os_path.splitext src).1 = (os_path.splitext src).1
  /\ predict_outputs env lang src = Ok (outputs_of lang EmptyString src).
Proof.
  intros Habs Hkey Hdir.
  assert (Hjoin : forall dir', os_path.join dir' (os_path.splitext src).1
                               = (os_path.splitext src).1).
  { intros dir'. unfold os_path.join.
    rewrite (stem_absolute src Habs). reflexivity. }
  split; [apply Hjoin|].
  rewrite (predict_outputs_key env lang key src Hkey), Hdir.
  unfold outputs_of. rewrite !Hjoin. reflexivity.
Qed.

Lemma X9_absolute_source_leaves_outdir_witness :
  predict_outputs example_env "python" (corrected_path "src/a" "src/b/x.proto")
  = Ok [VStr "/x_pb2.py"].
Proof.
  apply (X9_absolute_source_leaves_outdir example_env "python" "PROTOCPYTHONOUTDIR"
           "python" "/x.proto"); reflexivity.
Defined.

(** ** More about the installation *)

Lemma add_builder_lookup (env : environment) (k : string) (b : builder)
    (name : string) :
  BUILDERS (add_builder env (k, b)) !! name
  = match BUILDERS env !! name with
    | Some x => Some x
    | None => if decide (k = name) then Some b else None
    end.
Proof.
  unfold add_builder. cbn [fst snd].
  destruct (BUILDERS env !! k) as [x|] eqn:Ek.
  - destruct (BUILDERS env !! name) as [y|] eqn:En; [reflexivity|].
    case_decide; [congruence | reflexivity].
  - cbn. rewrite lookup_insert. case_decide.
    + subst name. rewrite Ek. reflexivity.
    + destruct (BUILDERS env !! name); reflexivity.
Qed.

(** X10. After [generate] the builders are those of the environment
    before it, and for each name of the tool's dictionary that was not
    taken, the builder of the tool: a name that the caller had is kept,
    [ProtocCPP], [ProtocPython] and [ProtocJava] are filled in where
    they were missing, and no other name appears. *)
Theorem X10_builders_after_generate
    (Detect : environment -> string -> option string) (env : environment)
    (name : string) :
  BUILDERS (generate Detect env) !! name
  = match BUILDERS env !! name with
    | Some b => Some b
    | None => tool_builders !! name
    end.
Proof.
  rewrite BUILDERS_generate. unfold add_builders, tool_builders.
  cbn [fold_left _builder_dict list_to_map foldr].
  rewrite !add_builder_lookup, !lookup_insert, lookup_empty.
  destruct (BUILDERS env !! name); [reflexivity|].
  cbn [fst snd]. repeat case_decide; first [reflexivity | congruence].
Qed.

Lemma environment_eq (e1 e2 : environment) :
  BUILDERS e1 = BUILDERS e2 -> vars e1 = vars e2 -> e1 = e2.
Proof. destruct e1, e2. simpl. intros -> ->. reflexivity. Qed.

Lemma add_builders_twice (env : environment) :
  BUILDERS (add_builders (add_builders env)) = BUILDERS (add_builders env).
Proof.
  unfold add_builders at 1. simpl.
  rewrite (add_builder_noop _ ("ProtocCPP", ProtocCPPBuilder)),
    (add_builder_noop _ ("ProtocPython", ProtocPythonBuilder)),
    (add_builder_noop _ ("ProtocJava", ProtocJavaBuilder));
    [reflexivity | apply add_builders_present; simpl; tauto ..].
Qed.

Lemma add_builder_BUILDERS (e1 e2 : environment) (kb : string * builder) :
  BUILDERS e1 = BUILDERS e2 ->
  BUILDERS (add_builder e1 kb) = BUILDERS (add_builder e2 kb).
Proof.
  intros H. unfold add_builder. rewrite H.
  destruct (BUILDERS e2 !! kb.1); [exact H|]. simpl. rewrite H. reflexivity.
Qed.

Lemma add_builders_generate (Detect : environment -> string -> option string)
    (env : environment) :
  BUILDERS (add_builders (generate Detect env)) = BUILDERS (add_builders env).
Proof.
  transitivity (BUILDERS (add_builders (add_builders env))); [|apply add_builders_twice].
  unfold add_builders at 1 3. simpl.
  do 3 apply add_builder_BUILDERS. apply BUILDERS_generate.
Qed.

(** X11. Installing the tool twice is installing it once, when the
    detection of the program gives the same both times: the second
    [generate] changes neither a builder nor a variable. *)
Theorem X11_generate_twice
    (Detect : environment -> string -> option string) (env : environment) :
  Detect (add_builders (generate Detect env)) protocs
  = Detect (add_builders env) protocs ->
  generate Detect (generate Detect env) = generate Detect env.
Proof.
  intros Hsame. apply environment_eq.
  - rewrite (BUILDERS_generate Detect (generate Detect env)).
    rewrite add_builders_generate. reflexivity.
  - rewrite (vars_generate Detect (generate Detect env)), Hsame.
    rewrite (insert_id _ "PROTOC") by apply generate_PROTOC.
    set (m := vars (generate Detect env)).
    assert (Hid : forall key v, In (key, v) default_values -> <[key := v]> m = m).
    { intros key v H. apply insert_id, generate_default, H. }
    rewrite (Hid "PROTOCFLAGS"), (Hid "PROTOCPROTOPATH"), (Hid "PROTOCCOM_START"),
      (Hid "PROTOCCOM_END"), (Hid "PROTOCOUTDIR"), (Hid "PROTOCPYTHONOUTDIR"),
      (Hid "PROTOCJAVAOUTDIR"), (Hid "PROTOCJAVAFLAG"), (Hid "PROTOCPYTHONFLAG"),
      (Hid "PROTOCCPPFLAG"), (Hid "PROTOCSRCSUFFIX") by (simpl; tauto).
    reflexivity.
Qed.

Lemma X11_generate_twice_witness :
  generate not_found (generate not_found (Env ∅ ∅)) = generate not_found (Env ∅ ∅).
Proof.
  apply (X11_generate_twice not_found (Env ∅ ∅)). reflexivity.
Defined.

(** X12. After [generate] the variable [PROTOC] holds a string that is
    never empty: it is the literal ['protoc'], or what [exists] finds
    in the environment with the builders added. *)
Theorem X12_PROTOC_not_empty
    (Detect : environment -> string -> option string) (env : environment) :
  exists p,
    vars (generate Detect env) !! "PROTOC" = Some (VStr p)
    /\ p <> EmptyString
    /\ (p = "protoc" \/ exists_ Detect (add_builders env) = Some p).
Proof.
  exists (or_protoc (Detect (add_builders env) protocs)).
  split; [apply generate_PROTOC|].
  unfold or_protoc, exists_.
  destruct (Detect (add_builders env) protocs) as [p|].
  - destruct (String.eqb_spec p EmptyString) as [->|Hp].
    + split; [discriminate | left; reflexivity].
    + split; [exact Hp | right; reflexivity].
  - split; [discriminate | left; reflexivity].
Qed.

(** ** Sources without an extension *)

Lemma rfind_slice_from (c : ascii) (n : nat) (s : string) (i : nat) :
  Py.rfind c s = Some i -> n <= i ->
  Py.rfind c (Py.slice_from n s) = Some (i - n).
Proof.
  revert s i. induction n as [|n IH]; intros s i Hs Hn.
  - rewrite Nat.sub_0_r. exact Hs.
  - destruct s as [|a s]; [discriminate Hs|].
    simpl in Hs. cbn [Py.slice_from].
    destruct (Py.rfind c s) as [j|] eqn:Ej.
    + injection Hs as <-. apply (IH s j Ej). lia.
    + destruct (Ascii.eqb a c); [injection Hs as <-; lia | discriminate Hs].
Qed.

Lemma splitext_no_dot (p : string) :
  Py.rfind os_path.extsep_char (last_component p) = None ->
  os_path.splitext p = (p, EmptyString).
Proof.
  unfold last_component, os_path.splitext. intros Hnone.
  destruct (Py.rfind os_path.extsep_char p) as [di|] eqn:Edot; [|reflexivity].
  destruct (_ <=? di) eqn:Hle; [|reflexivity].
  apply Nat.leb_le in Hle.
  rewrite (rfind_slice_from _ _ _ _ Edot Hle) in Hnone. discriminate Hnone.
Qed.

Lemma all_dots_no_dot (s : string) :
  Py.rfind os_path.extsep_char s = None -> s <> EmptyString ->
  os_path.all_dots s = false.
Proof.
  destruct s as [|a s]; [contradiction|]. intros H _. simpl in *.
  destruct (Py.rfind os_path.extsep_char s); [discriminate H|].
  destruct (Ascii.eqb a os_path.extsep_char); [discriminate H | reflexivity].
Qed.

(** X13. A source with no dot in its last component is taken whole as
    the stem (dots in the names of its directories do not count): its
    targets are those of the same path with [.proto] after it. *)
Theorem X13_source_without_extension (env : environment) (lang p : string) :
  Py.rfind os_path.extsep_char (last_component p) = None ->
  last_component p <> EmptyString ->
  os_path.splitext p = (p, EmptyString)
  /\ predict_outputs env lang p = predict_outputs env lang (p +:+ ".proto").
Proof.
  intros Hnone Hlast. split; [apply splitext_no_dot, Hnone|].
  unfold predict_outputs.
  rewrite (splitext_no_dot p Hnone), splitext_proto; [reflexivity|].
  apply all_dots_no_dot; assumption.
Qed.

Lemma X13_source_without_extension_witness :
  os_path.splitext "v1.2/README" = ("v1.2/README", EmptyString)
  /\ predict_outputs example_env "java" "v1.2/README"
     = predict_outputs example_env "java" "v1.2/README.proto".
Proof.
  apply (X13_source_without_extension example_env "java" "v1.2/README");
    [reflexivity | discriminate].
Defined.

(** ** The command straight after the installation *)

(** X14. From installation to command: after [generate] in any
    environment and [n] runs of the emitter from an SConscript in
    directory [d], the command of a language is the program that
    [generate] has set, [n] flags [-Id], the [-o] flag of the descriptor
    set that the environment had (if any), the output flag of the
    language with its default directory ([python], [java], or for C++
    the directory of the first source), and the sources. *)
Theorem X14_command_after_install
    (Detect : environment -> string -> option string) (env : environment)
    (fds : option string) (l : language) (d : string) (n : nat)
    (target : list value) (source : list string) (lang : string)
    (fuel : nat) (tg src : list string) (w : string) :
  vars env !! "PROTOCFDSOUT" = VStr <$> fds ->
  (forall p, fds = Some p -> clean p = true) ->
  plain (or_protoc (Detect (add_builders env) protocs)) = true ->
  plain d = true ->
  outdir_word src (default_outdir l) w ->
  3 <= fuel ->
  command_line fuel (emit_times n d target source lang (generate Detect env))
    (lang_action l) tg src
  = Ok ([or_protoc (Detect (add_builders env) protocs)]
        ++ map (String.append "-I") (repeat d n)
        ++ fdsout_flag fds ++ [lang_option l +:+ w] ++ src).
Proof.
  intros Hfds Hclean Hexe Hd Hw Hfuel.
  destruct fuel as [|[|[|fuel]]]; [lia ..|].
  pose proof (generate_configured Detect env fds l Hfds Hclean Hexe) as Hcfg.
  pose proof (emit_times_configured n d target source lang _ _ _ _ _ _ _ Hd Hcfg) as Hn.
  rewrite app_nil_r in Hn.
  apply (command_line_configured _ _ _ _ _ _ _ Hn fuel tg src w Hw).
Qed.

Lemma X14_command_after_install_witness :
  command_line 3
    (emit_times 2 "foo" [] ["foo/bar.proto"] "cpp" (generate not_found (Env ∅ ∅)))
    ProtocCPPAction [] ["foo/bar.proto"]
  = Ok ["protoc"; "-Ifoo"; "-Ifoo"; "--cpp_out=foo"; "foo/bar.proto"].
Proof.
  apply (X14_command_after_install not_found (Env ∅ ∅) None Cpp "foo" 2
           [] ["foo/bar.proto"] "cpp" 3 [] ["foo/bar.proto"] "foo").
  - reflexivity.
  - discriminate.
  - reflexivity.
  - reflexivity.
  - apply (outdir_of_source ["foo/bar.proto"] "foo/bar.proto" []). reflexivity.
  - lia.
Defined.
